(** * Google search pagination driver (googlesearch.js): a shallow embedding

    The script drives a multi-page Google search from inside the page:
    [extractCurrentPageGoogleResults] scrapes one results page,
    [startFullGoogleSearchAutomation] is the phase controller whose state
    survives navigation in [sessionStorage], and [onPageLoad] resumes the
    controller after every page load.

    Conventions of the embedding.
    - JavaScript strings are [string]s, one character per code unit;
      [String.length] stands for [.length].  The model is exact for
      strings whose code units are below 256.
    - The DOM is an oracle: every [querySelector] / [closest] / [matches]
      call of the source is a field of the record that stands for the
      element it is called on.
    - [await sleep(..)] only delays; it has no counterpart here.
    - What the controller and the load hook do is recorded as events:
      [console] output, [sessionStorage] writes, assignments to
      [window.location.href] and [click()] calls.  The [console] output
      of the extraction is not recorded. *)

From Stdlib Require Import String Ascii List Bool Arith Lia.
From Stdlib Require DecimalString.
Import ListNotations.
Local Open Scope string_scope.
Local Open Scope list_scope.

(* ================================================================== *)
(** ** JavaScript string methods used by the script *)
(* ================================================================== *)

Module JsString.

(** [/\s/] on code units below 256: TAB, LF, VT, FF, CR, SPACE, NBSP. *)
Definition is_space (c : ascii) : bool :=
  match nat_of_ascii c with
  | 9 | 10 | 11 | 12 | 13 | 32 | 160 => true
  | _ => false
  end.

Fixpoint trimStart (s : string) : string :=
  match s with
  | EmptyString => EmptyString
  | String c r => if is_space c then trimStart r else s
  end.

Fixpoint trimEnd (s : string) : string :=
  match s with
  | EmptyString => EmptyString
  | String c r =>
      let r' := trimEnd r in
      if is_space c && (r' =? "") then EmptyString else String c r'
  end.

(** [s.trim()] *)
Definition trim (s : string) : string := trimEnd (trimStart s).

(** [s.startsWith(p)] *)
Definition startsWith (p s : string) : bool := String.prefix p s.

(** [s.includes(needle)] *)
Fixpoint includes (needle s : string) : bool :=
  String.prefix needle s ||
  match s with
  | EmptyString => false
  | String _ r => includes needle r
  end.

(** [s.split('\n')[0]] *)
Fixpoint firstLine (s : string) : string :=
  match s with
  | EmptyString => EmptyString
  | String c r => if (c =? "010")%char then EmptyString else String c (firstLine r)
  end.

(** Lower case of a code unit below 256: A-Z, and the accented capitals
    192-222 except the multiplication sign 215. *)
Definition lower_char (c : ascii) : ascii :=
  let n := nat_of_ascii c in
  if ((65 <=? n) && (n <=? 90))%nat then ascii_of_nat (n + 32)
  else if ((192 <=? n) && (n <=? 222) && negb (n =? 215))%nat then ascii_of_nat (n + 32)
  else c.

(** [s.toLowerCase()] *)
Fixpoint toLowerCase (s : string) : string :=
  match s with
  | EmptyString => EmptyString
  | String c r => String (lower_char c) (toLowerCase r)
  end.

Fixpoint collapse_from (in_ws : bool) (s : string) : string :=
  match s with
  | EmptyString => EmptyString
  | String c r =>
      if is_space c
      then (if in_ws then collapse_from true r
            else String " " (collapse_from true r))
      else String c (collapse_from false r)
  end.

(** [s.replace(/\s+/g, ' ')] *)
Definition collapseSpaces (s : string) : string := collapse_from false s.

(** [s.replace(/\.\.\.$/, '')] *)
Fixpoint stripEllipsis (s : string) : string :=
  match s with
  | EmptyString => EmptyString
  | String c r => if (s =? "...") then EmptyString else String c (stripEllipsis r)
  end.

(** [parts.join(' ')] *)
Fixpoint joinSpace (parts : list string) : string :=
  match parts with
  | [] => ""
  | [p] => p
  | p :: rest => p ++ " " ++ joinSpace rest
  end.

(** [[...new Set(parts)]]: first occurrences, in order. *)
Fixpoint uniqueFrom (seen parts : list string) : list string :=
  match parts with
  | [] => []
  | p :: rest =>
      if existsb (String.eqb p) seen then uniqueFrom seen rest
      else p :: uniqueFrom (p :: seen) rest
  end.

Definition unique (parts : list string) : list string := uniqueFrom [] parts.

(** A value is truthy as a string when it is not the empty string. *)
Definition nonEmpty (s : string) : bool := negb (s =? "").

End JsString.

(* ================================================================== *)
(** ** [URLSearchParams] *)
(* ================================================================== *)

Module URLSearchParams.

Definition hexval (c : ascii) : option nat :=
  let n := nat_of_ascii c in
  if ((48 <=? n) && (n <=? 57))%nat then Some (n - 48)
  else if ((65 <=? n) && (n <=? 70))%nat then Some (n - 55)
  else if ((97 <=? n) && (n <=? 102))%nat then Some (n - 87)
  else None.

(** A UTF-8 continuation byte. *)
Definition isContinuation (b : nat) : bool := ((128 <=? b) && (b <=? 191))%nat.

(** What stands for a decoded character that is not a code unit below
    256 (a character above U+00FF, or the replacement character U+FFFD
    that the platform writes for bytes that are not UTF-8): such text is
    outside the alphabet of the model. *)
Definition outsideAlphabet : ascii := "?"%char.

(** The decoding of a name or a value: [+] becomes a space, the bytes
    written as [%XX] are read as UTF-8, everything else stands for
    itself.  A byte below 128 is one character; the two-byte sequences
    that start with C2 or C3 are the characters 128 to 255. *)
Fixpoint decode (s : string) : string :=
  match s with
  | EmptyString => EmptyString
  | String c r =>
      if (c =? "%")%char then
        match r with
        | String h1 (String h2 r2) =>
            match hexval h1, hexval h2 with
            | Some a, Some b =>
                let byte := 16 * a + b in
                if (byte <? 128)%nat then String (ascii_of_nat byte) (decode r2)
                else
                  match r2 with
                  | String p (String h3 (String h4 r4)) =>
                      match hexval h3, hexval h4 with
                      | Some a2, Some b2 =>
                          let byte2 := 16 * a2 + b2 in
                          if (p =? "%")%char
                             && ((byte =? 194) || (byte =? 195))%nat
                             && isContinuation byte2
                          then String (ascii_of_nat ((byte - 192) * 64 + (byte2 - 128)))
                                 (decode r4)
                          else String outsideAlphabet (decode r2)
                      | _, _ => String outsideAlphabet (decode r2)
                      end
                  | _ => String outsideAlphabet (decode r2)
                  end
            | _, _ => String c (decode r)
            end
        | _ => String c (decode r)
        end
      else String (if (c =? "+")%char then " "%char else c) (decode r)
  end.

(** Pieces of [s] between occurrences of [sep]. *)
Fixpoint splitOn (sep : ascii) (s : string) : list string :=
  match s with
  | EmptyString => [EmptyString]
  | String c r =>
      if (c =? sep)%char then EmptyString :: splitOn sep r
      else match splitOn sep r with
           | [] => [String c EmptyString]
           | p :: ps => String c p :: ps
           end
  end.

(** Name and value of one [name=value] piece (split at the first [=]). *)
Fixpoint cutAtEq (s : string) : string * string :=
  match s with
  | EmptyString => (EmptyString, EmptyString)
  | String c r =>
      if (c =? "=")%char then (EmptyString, r)
      else let (n, v) := cutAtEq r in (String c n, v)
  end.

Definition pair_of (piece : string) : string * string :=
  let (n, v) := cutAtEq piece in (decode n, decode v).

(** [new URLSearchParams(search)]: a leading [?] is dropped, empty
    pieces are skipped. *)
Definition parse (search : string) : list (string * string) :=
  let body := match search with
              | String "?" r => r
              | _ => search
              end in
  map pair_of (filter JsString.nonEmpty (splitOn "&" body)).

(** [params.get(name)]; [None] is JavaScript's [null]. *)
Fixpoint get (name : string) (params : list (string * string)) : option string :=
  match params with
  | [] => None
  | (n, v) :: rest => if n =? name then Some v else get name rest
  end.

(** [params.has(name)] *)
Definition has (name : string) (params : list (string * string)) : bool :=
  match get name params with Some _ => true | None => false end.

End URLSearchParams.

(* ================================================================== *)
(** ** The page as the script sees it *)
(* ================================================================== *)

(** The value of a property read such as [el.href]: an HTML anchor gives
    a string, an element that has no such property gives [undefined], an
    SVG anchor gives an object (an [SVGAnimatedString]). *)
Inductive JsValue :=
| VUndefined
| VString (s : string)
| VObject.

Definition truthy (v : JsValue) : bool :=
  match v with
  | VUndefined => false
  | VString s => JsString.nonEmpty s
  | VObject => true
  end.

(** String concatenation coerces [undefined] to its name. *)
Definition toString (v : JsValue) : string :=
  match v with
  | VUndefined => "undefined"
  | VString s => s
  | VObject => "[object Object]"
  end.

(** An element returned by a query, with what the script reads from it.
    [q_heading] is the [textContent] of
    [querySelector('h3, div[role="heading"]')] under the element. *)
Record Element := {
  tagName : string;
  href : JsValue;
  textContent : string;
  q_heading : option string
}.

(** The first [h3] of a candidate: its text, [closest('a')], and its
    following element siblings in document order. *)
Record Heading := {
  h3_textContent : string;
  h3_closest_a : option Element;
  h3_nextSiblings : list Element
}.

(** An element matched by one of the snippet selectors.
    [sn_closest_anchor u] answers [el.closest('a[href="' + u + '"]')]:
    [Some b] says whether an element was found, [None] that the selector
    built from [u] is not valid and the call throws. *)
Record SnippetNode := {
  sn_textContent : string;
  sn_closest_h3 : bool;
  sn_closest_cite : bool;
  sn_closest_anchor : string -> option bool
}.

(** One candidate result container ([resultElement]). *)
Record Candidate := {
  q_titleLink : option Element;   (* 'h3 a, a h3, div[role="heading"] a, a div[role="heading"]' *)
  q_h3 : option Heading;          (* 'h3' *)
  q_generalLink : option Element; (* 'a[href^="http"], a[href^="/url"]' *)
  matches_RzdJxc : bool;          (* matches('.RzdJxc') *)
  q_videoTitle : option Element;  (* '.fc9yUc.tNxQIb, .X5OiLe, .yDYNvb' *)
  q_videoLink : option Element;   (* 'a.X5OiLe, a.lcAnhc' *)
  q_cite : option Element;        (* 'cite, .VuuXrf, .UPmit, .tjvcx' *)
  q_snippets : list (list SnippetNode); (* querySelectorAll, one list per summary selector *)
  strippedText : string           (* textContent of the clone once the chrome is removed *)
}.

Record Button := {
  name : string;
  ariaLabel : option string       (* getAttribute('aria-label') *)
}.

Record Document := {
  resultElements : list Candidate;    (* the result-container selector list *)
  q_searchInput : bool;               (* 'textarea[name="q"], input[name="q"]' found *)
  q_searchButton : option Button;     (* 'input[name="btnK"], button[aria-label*="Search"], button[type="submit"]' *)
  q_submitButtons : list Button;      (* querySelectorAll('input[name="btnK"], button[type="submit"]') *)
  q_nextPageButton : option Element   (* 'a#pnnext, a[aria-label="Next page"], ...' *)
}.

Record Location := {
  hostname : string;
  pathname : string;
  loc_href : string
}.

(** [URL_search u] is [new URL(u, window.location.origin).search];
    [None] when the constructor throws. *)
Record Window := {
  location : Location;
  document : Document;
  URL_search : string -> option string
}.

Record ResultRecord := {
  title : string;
  url : string;
  displayUrl : string;
  summary : string
}.

(* ================================================================== *)
(** ** Exceptions and the [results] array *)
(* ================================================================== *)

Inductive Exn := TypeError | SyntaxError.

(** A computation that may throw while it mutates the [results] array. *)
Definition Eff (A : Type) : Type :=
  list ResultRecord -> (Exn + A) * list ResultRecord.

Definition ret {A} (a : A) : Eff A := fun rs => (inr a, rs).

Definition throw {A} (e : Exn) : Eff A := fun rs => (inl e, rs).

Definition bind {A B} (m : Eff A) (k : A -> Eff B) : Eff B :=
  fun rs =>
    match m rs with
    | (inl e, rs') => (inl e, rs')
    | (inr a, rs') => k a rs'
    end.

(** [try { body } catch (e) { handler(e) }] *)
Definition tryCatch {A} (body : Eff A) (handler : Exn -> Eff A) : Eff A :=
  fun rs =>
    match body rs with
    | (inl e, rs') => handler e rs'
    | ok => ok
    end.

(** [results.push(r)] *)
Definition push (r : ResultRecord) : Eff unit := fun rs => (inr tt, rs ++ [r]).

Declare Scope eff_scope.
Delimit Scope eff_scope with eff.
Notation "x <- m ;; k" := (bind m (fun x => k))
  (at level 61, m at next level, right associativity) : eff_scope.
Notation "m ;;; k" := (bind m (fun _ => k))
  (at level 61, right associativity) : eff_scope.

(** [list.forEach(f)] *)
Fixpoint forEach {A} (f : A -> Eff unit) (l : list A) : Eff unit :=
  match l with
  | [] => ret tt
  | a :: rest => bind (f a) (fun _ => forEach f rest)
  end.

(** Monadic left fold, for a loop that accumulates and may throw. *)
Fixpoint foldEff {A B} (f : B -> A -> Eff B) (l : list A) (b : B) : Eff B :=
  match l with
  | [] => ret b
  | a :: rest => bind (f b a) (foldEff f rest)
  end.

(* ================================================================== *)
(** ** [extractCurrentPageGoogleResults] *)
(* ================================================================== *)

Local Open Scope eff_scope.

Definition NA : string := "N/A".

(** The sentinel '未找到有效摘要。' as its UTF-8 bytes. *)
Definition noSummary : string := "未找到有效摘要。".

(** The local variables [title], [url] and whether [titleLinkElement]
    is non-null. *)
Record Locals := {
  l_title : string;
  l_url : JsValue;
  l_titleLinkElement : bool
}.

(** The [while] loop over [nextElementSibling]: the first following
    sibling whose [tagName] is ['A']. *)
Definition siblingLink (h3Tag : Heading) : option Element :=
  find (fun e => tagName e =? "A") (h3_nextSiblings h3Tag).

(** Lines 26-48: the heading strategies. *)
Definition resolveTitleLink (c : Candidate) : Locals :=
  match q_titleLink c with
  | None =>
      match q_h3 c with
      | Some h3Tag =>
          match h3_closest_a h3Tag with
          | Some _ =>
              {| l_title := JsString.trim (h3_textContent h3Tag);
                 l_url := VString NA;
                 l_titleLinkElement := true |}
          | None =>
              let parentAnchorHref :=
                match h3_closest_a h3Tag with
                | Some parentAnchor => href parentAnchor
                | None => VString NA
                end in
              {| l_title := JsString.trim (h3_textContent h3Tag);
                 l_url := match siblingLink h3Tag with
                          | Some sib => if truthy (href sib) then href sib
                                        else parentAnchorHref
                          | None => parentAnchorHref
                          end;
                 l_titleLinkElement := false |}
          end
      | None =>
          {| l_title := NA; l_url := VString NA; l_titleLinkElement := false |}
      end
  | Some titleLinkElement =>
      {| l_title := match q_heading titleLinkElement with
                    | Some h3OrHeading => JsString.trim h3OrHeading
                    | None => JsString.firstLine
                                (JsString.trim (textContent titleLinkElement))
                    end;
         l_url := href titleLinkElement;
         l_titleLinkElement := true |}
  end.

(** Line 55: [potentialTitle && potentialTitle.length > 5 &&
    potentialTitle.length < 150]. *)
Definition acceptsPotentialTitle (potentialTitle : string) : bool :=
  JsString.nonEmpty potentialTitle
  && (5 <? String.length potentialTitle)%nat
  && (String.length potentialTitle <? 150)%nat.

(** Lines 50-59: any absolute or [/url] anchor. *)
Definition generalLinkFallback (c : Candidate) (l : Locals) : Locals :=
  if negb (l_titleLinkElement l) && (l_title l =? NA) then
    match q_generalLink c with
    | Some generalLink =>
        let potentialTitle :=
          JsString.firstLine (JsString.trim (textContent generalLink)) in
        {| l_title := if acceptsPotentialTitle potentialTitle
                      then potentialTitle else l_title l;
           l_url := href generalLink;
           l_titleLinkElement := l_titleLinkElement l |}
    | None => l
    end
  else l.

(** Lines 61-66: video results. *)
Definition videoFallback (c : Candidate) (l : Locals) : Locals :=
  if (l_title l =? NA) && matches_RzdJxc c then
    {| l_title := match q_videoTitle c with
                  | Some videoTitleElement =>
                      JsString.trim (textContent videoTitleElement)
                  | None => l_title l
                  end;
       l_url := match q_videoLink c with
                | Some videoLinkElement => href videoLinkElement
                | None => l_url l
                end;
       l_titleLinkElement := l_titleLinkElement l |}
  else l.

(** Lines 69-76: unwrap a Google redirect link.  Calling [includes] on a
    truthy value that is not a string throws; a throwing [new URL] is
    caught by the inner handler and leaves [url] as it is. *)
Definition unwrapRedirect (w : Window) (u : JsValue) : Eff JsValue :=
  match u with
  | VUndefined => ret u
  | VObject => throw TypeError
  | VString s =>
      if JsString.nonEmpty s && JsString.includes "/url?q=" s then
        match URL_search w s with
        | Some search =>
            let urlParams := URLSearchParams.parse search in
            if URLSearchParams.has "q" urlParams then
              match URLSearchParams.get "q" urlParams with
              | Some q => ret (VString q)
              | None => ret u
              end
            else ret u
        | None => ret u
        end
      else ret u
  end.

(** Lines 78-79. *)
Definition resolveDisplayUrl (c : Candidate) : string :=
  match q_cite c with
  | Some citeElement => JsString.trim (textContent citeElement)
  | None => NA
  end.

(** Line 91, for one matched element; [&&] evaluates left to right. *)
Definition snippetStep (u : string) (summaryParts : list string) (el : SnippetNode)
  : Eff (list string) :=
  if sn_closest_h3 el then ret summaryParts
  else if sn_closest_cite el then ret summaryParts
  else match sn_closest_anchor el u with
       | None => throw SyntaxError
       | Some true => ret summaryParts
       | Some false =>
           let t := JsString.trim (sn_textContent el) in
           if (15 <? String.length t)%nat then ret (summaryParts ++ [t])
           else ret summaryParts
       end.

(** Lines 89-95: the two nested [forEach] loops. *)
Definition collectSummaryParts (c : Candidate) (u : string) : Eff (list string) :=
  foldEff (fun parts els => foldEff (snippetStep u) els parts) (q_snippets c) [].

(** Lines 96-106. *)
Definition resolveSummary (c : Candidate) (title0 : string) (summaryParts : list string)
  : string :=
  let summary0 :=
    match summaryParts with
    | _ :: _ =>
        JsString.trim
          (JsString.collapseSpaces (JsString.joinSpace (JsString.unique summaryParts)))
    | [] =>
        let s := JsString.trim (JsString.collapseSpaces (strippedText c)) in
        if (350 <? String.length s)%nat then (String.substring 0 350 s ++ "...")%string else s
    end in
  if negb (JsString.nonEmpty (JsString.trim (JsString.stripEllipsis summary0)))
     || (JsString.startsWith
           (String.substring 0 15 (JsString.toLowerCase title0))
           (JsString.toLowerCase summary0)
         && (15 <? String.length title0)%nat)
  then noSummary else summary0.

(** Line 108: the acceptance test, and line 109. *)
Definition pushIfValid (title0 : string) (u : JsValue) (displayUrl0 summary0 : string)
  : Eff unit :=
  if JsString.nonEmpty title0 && negb (title0 =? NA) && truthy u then
    match u with
    | VString s =>
        if negb (s =? NA) && negb (JsString.startsWith "javascript:void" s)
        then push {| title := title0; url := s;
                     displayUrl := displayUrl0; summary := summary0 |}
        else ret tt
    | _ => throw TypeError
    end
  else ret tt.

(** The body of the [try] block, lines 26-110. *)
Definition processCandidate (w : Window) (c : Candidate) : Eff unit :=
  let l := videoFallback c (generalLinkFallback c (resolveTitleLink c)) in
  u <- unwrapRedirect w (l_url l) ;;
  let displayUrl0 := resolveDisplayUrl c in
  summaryParts <- collectSummaryParts c (toString u) ;;
  let summary0 := resolveSummary c (l_title l) summaryParts in
  pushIfValid (l_title l) u displayUrl0 summary0.

(** The [forEach] callback: the body under its own handler, lines
    25-113.  The handler only writes to the console. *)
Definition extractOne (w : Window) (c : Candidate) : Eff unit :=
  tryCatch (processCandidate w c) (fun _ => ret tt).

(** Lines 12 and 19-115: [results] starts empty, the callback runs on
    every candidate, [results] is returned. *)
Definition extractFrom (w : Window) (searchResultElements : list Candidate)
  : Exn + list ResultRecord :=
  match forEach (extractOne w) searchResultElements [] with
  | (inl e, _) => inl e
  | (inr _, results) => inr results
  end.

(** Lines 11-116. *)
Definition extractCurrentPageGoogleResults (w : Window) : Exn + list ResultRecord :=
  extractFrom w (resultElements (document w)).

Local Close Scope eff_scope.

(* ================================================================== *)
(** ** Workflow state, the store and observable events *)
(* ================================================================== *)

Inductive Phase := INITIATE_SEARCH | ON_GOOGLE_HOME | SCRAPING_RESULTS | FINISHED.

Definition phase_eqb (p q : Phase) : bool :=
  match p, q with
  | INITIATE_SEARCH, INITIATE_SEARCH
  | ON_GOOGLE_HOME, ON_GOOGLE_HOME
  | SCRAPING_RESULTS, SCRAPING_RESULTS
  | FINISHED, FINISHED => true
  | _, _ => false
  end.

(** The object [state].  [keyword] is [None] when the property is
    [undefined]. *)
Record WorkflowState := {
  keyword : option string;
  currentPageNum : nat;
  allResults : list ResultRecord;
  currentPhase : Phase;
  maxPages : nat
}.

(** What [sessionStorage.getItem('googleFullSearchState')] holds: text
    that [JSON.parse] rejects (or whose fields cannot be read), or the
    serialisation of a state.  [None] is [null] (or the empty string). *)
Inductive Payload :=
| Corrupt
| Stored (s : WorkflowState).

Definition Storage := option Payload.

Inductive Control :=
| ButtonControl (b : Button)
| AnchorControl (a : Element).

Inductive Level := LLog | LWarn | LError.

(** One constructor per [console] call site. *)
Inductive Msg :=
| MsgRestored | MsgNewKeyword | MsgContinueStored
| ErrNoKeywordAnywhere | ErrFirstRunNeedsKeyword
| ErrParseFailed | ErrNoKeywordCorrupt
| MsgPhase | MsgNavigatingHome | WarnMismatch | MsgRetryHome
| MsgOnHome | MsgKeywordTyped | MsgClickingSearch | ErrNoSearchControls
| MsgOnResults | MsgPageCount | MsgNoNewResults
| MsgMaxPagesReached | MsgNextPage | MsgNoNextPage
| MsgFinalResults
| MsgHookResuming | MsgHookFinished | ErrHookParse | MsgHookIdle.

Inductive Event :=
| Console (lvl : Level) (msg : Msg)
| ConsoleTable (rows : list ResultRecord)
| SetItem (s : WorkflowState)      (* sessionStorage.setItem(KEY, JSON.stringify(s)) *)
| RemoveItem                       (* sessionStorage.removeItem(KEY) *)
| SetValue (v : option string)     (* searchInput.value = v *)
| Navigate (target : string)       (* window.location.href = target *)
| Click (target : Control).        (* target.click() *)

(** The variables one invocation works on.  [log] is newest first;
    [uncaught] is set when an exception leaves the async function. *)
Record Machine := {
  state : WorkflowState;
  sessionStorage : Storage;
  log : list Event;
  uncaught : option Exn
}.

Definition trace (m : Machine) : list Event := rev (log m).

Definition Action := Machine -> Machine.

Definition andThen (a b : Action) : Action := fun m => b (a m).

Declare Scope action_scope.
Delimit Scope action_scope with action.
Notation "a >> b" := (andThen a b) (at level 62, left associativity) : action_scope.

Definition skip : Action := fun m => m.

Definition emit (e : Event) : Action := fun m =>
  {| state := state m; sessionStorage := sessionStorage m;
     log := e :: log m; uncaught := uncaught m |}.

Definition console (lvl : Level) (msg : Msg) : Action := emit (Console lvl msg).

Definition setState (f : WorkflowState -> WorkflowState) : Action := fun m =>
  {| state := f (state m); sessionStorage := sessionStorage m;
     log := log m; uncaught := uncaught m |}.

Definition setItem : Action := fun m =>
  {| state := state m; sessionStorage := Some (Stored (state m));
     log := SetItem (state m) :: log m; uncaught := uncaught m |}.

Definition removeItem : Action := fun m =>
  {| state := state m; sessionStorage := None;
     log := RemoveItem :: log m; uncaught := uncaught m |}.

Definition escape (e : Exn) : Action := fun m =>
  {| state := state m; sessionStorage := sessionStorage m;
     log := log m; uncaught := Some e |}.

Definition withPhase (p : Phase) (s : WorkflowState) : WorkflowState :=
  {| keyword := keyword s; currentPageNum := currentPageNum s;
     allResults := allResults s; currentPhase := p; maxPages := maxPages s |}.

Definition withResults (rs : list ResultRecord) (s : WorkflowState) : WorkflowState :=
  {| keyword := keyword s; currentPageNum := currentPageNum s;
     allResults := rs; currentPhase := currentPhase s; maxPages := maxPages s |}.

Definition nextPage (s : WorkflowState) : WorkflowState :=
  {| keyword := keyword s; currentPageNum := S (currentPageNum s);
     allResults := allResults s; currentPhase := currentPhase s;
     maxPages := maxPages s |}.

(** [state.keyword = k; state.currentPageNum = 1; state.allResults = [];
    state.currentPhase = "INITIATE_SEARCH"] *)
Definition restartWith (k : option string) (s : WorkflowState) : WorkflowState :=
  {| keyword := k; currentPageNum := 1; allResults := [];
     currentPhase := INITIATE_SEARCH; maxPages := maxPages s |}.

(** Truthiness of a keyword: defined and not empty. *)
Definition given (k : option string) : bool :=
  match k with
  | Some s => JsString.nonEmpty s
  | None => false
  end.

(** [a === b] on keywords. *)
Definition keyword_eqb (a b : option string) : bool :=
  match a, b with
  | Some x, Some y => x =? y
  | None, None => true
  | _, _ => false
  end.

(* ================================================================== *)
(** ** [startFullGoogleSearchAutomation] *)
(* ================================================================== *)

Definition MAX_PAGES_TO_SCRAPE : nat := 10.

Definition googleHome : string := "https://www.google.com/".

(** Lines 126-132. *)
Definition initialState (keyword0 : option string) : WorkflowState :=
  {| keyword := keyword0; currentPageNum := 1; allResults := [];
     currentPhase := INITIATE_SEARCH; maxPages := MAX_PAGES_TO_SCRAPE |}.

Definition start (keyword0 : option string) (storage : Storage) : Machine :=
  {| state := initialState keyword0; sessionStorage := storage;
     log := []; uncaught := None |}.

Local Open Scope action_scope.

(** Lines 174-176. *)
Definition saveState : Action := setItem.

(** Lines 178-185. *)
Definition displayAndClearFinalResults : Action := fun m =>
  (console LLog MsgFinalResults
   >> emit (ConsoleTable (allResults (state m)))
   >> removeItem) m.

(** Lines 135-171: restore the state.  The boolean tells whether the
    function goes on ([false]: it has returned). *)
Definition loadState (keyword0 : option string) (m : Machine) : bool * Machine :=
  match sessionStorage m with
  | Some (Stored parsedState) =>
      let m1 :=
        if given keyword0 && keyword_eqb (keyword parsedState) keyword0 then
          (setState (fun _ => parsedState) >> console LLog MsgRestored) m
        else if given keyword0 then
          (console LLog MsgNewKeyword >> setState (restartWith keyword0)) m
        else if negb (given keyword0) && given (keyword parsedState) then
          (setState (fun _ => parsedState) >> console LLog MsgContinueStored) m
        else m in
      if negb (given (keyword (state m1))) then
        (false, (console LError ErrNoKeywordAnywhere >> removeItem) m1)
      else (true, m1)
  | Some Corrupt =>
      let m1 := console LError ErrParseFailed m in
      if negb (given keyword0) then (false, console LError ErrNoKeywordCorrupt m1)
      else (true, m1)
  | None =>
      if negb (given keyword0) then (false, console LError ErrFirstRunNeedsKeyword m)
      else (true, m)
  end.

(** Line 240 and line 243: the "I'm Feeling Lucky" tests. *)
Definition feelingLucky (label : option string) : bool :=
  match label with
  | Some a => JsString.nonEmpty a
              && JsString.includes "feeling lucky" (JsString.toLowerCase a)
  | None => false
  end.

Definition isLuckyButton (b : Button) : bool :=
  (name b =? "btnI") || feelingLucky (ariaLabel b).

Definition isPlainButton (b : Button) : bool :=
  negb (name b =? "btnI") && negb (feelingLucky (ariaLabel b)).

(** Lines 239-248. *)
Definition actualSearchButton (d : Document) (searchButton : Button) : Button :=
  if isLuckyButton searchButton then
    match find isPlainButton (q_submitButtons d) with
    | Some btn => btn
    | None => searchButton
    end
  else searchButton.

(** Lines 226-257. *)
Definition processGoogleHomePage (w : Window) : Action := fun m =>
  let m := console LLog MsgOnHome m in
  match q_searchInput (document w), q_searchButton (document w) with
  | true, Some searchButton =>
      (emit (SetValue (keyword (state m)))
       >> console LLog MsgKeywordTyped
       >> console LLog MsgClickingSearch
       >> setState (withPhase SCRAPING_RESULTS)
       >> saveState
       >> emit (Click (ButtonControl (actualSearchButton (document w) searchButton)))) m
  | _, _ =>
      (console LError ErrNoSearchControls >> removeItem) m
  end.

(** Line 268: [existingItem.url === newItem.url &&
    existingItem.title === newItem.title]. *)
Definition sameEntry (newItem existingItem : ResultRecord) : bool :=
  (url existingItem =? url newItem) && (title existingItem =? title newItem).

(** Lines 267-271: the merging [forEach]. *)
Definition mergeResults (all currentPageData : list ResultRecord) : list ResultRecord :=
  fold_left
    (fun acc newItem => if existsb (sameEntry newItem) acc then acc else acc ++ [newItem])
    currentPageData all.

(** Lines 277-283 and 294-297. *)
Definition finish (why : Msg) : Action :=
  console LLog why >> setState (withPhase FINISHED) >> saveState
  >> displayAndClearFinalResults.

(** Lines 266-275: merge the page into [allResults]. *)
Definition mergePage (currentPageData : list ResultRecord) : Action :=
  match currentPageData with
  | _ :: _ =>
      setState (fun s => withResults (mergeResults (allResults s) currentPageData) s)
      >> emit (ConsoleTable (firstn 5 currentPageData))
  | [] => console LLog MsgNoNewResults
  end.

(** Lines 277-298: stop, or go to the next page. *)
Definition paginate (w : Window) : Action := fun m =>
  if (maxPages (state m) <=? currentPageNum (state m))%nat then
    finish MsgMaxPagesReached m
  else
    match q_nextPageButton (document w) with
    | Some nextPageButton =>
        if truthy (href nextPageButton) then
          (console LLog MsgNextPage
           >> setState nextPage
           >> saveState
           >> emit (Click (AnchorControl nextPageButton))) m
        else finish MsgNoNextPage m
    | None => finish MsgNoNextPage m
    end.

(** Lines 259-299. *)
Definition processSearchResultsPage (w : Window) : Action := fun m =>
  let m := console LLog MsgOnResults m in
  match extractCurrentPageGoogleResults w with
  | inl e => escape e m
  | inr currentPageData =>
      (console LLog MsgPageCount >> mergePage currentPageData >> paginate w) m
  end.

(** Lines 211-224: the page does not fit the phase. *)
Definition recover : Action := fun m =>
  let m := console LWarn WarnMismatch m in
  if given (keyword (state m)) then
    (console LLog MsgRetryHome
     >> setState (restartWith (keyword (state m)))
     >> saveState
     >> emit (Navigate googleHome)) m
  else removeItem m.

(** Lines 188-224: the phase dispatch. *)
Definition dispatch (w : Window) : Action := fun m =>
  let loc := location w in
  let m := console LLog MsgPhase m in
  match currentPhase (state m) with
  | INITIATE_SEARCH =>
      if negb (JsString.includes "google.com" (hostname loc))
         || negb (pathname loc =? "/") then
        (console LLog MsgNavigatingHome
         >> setState (withPhase ON_GOOGLE_HOME)
         >> saveState
         >> emit (Navigate googleHome)) m
      else
        (setState (withPhase ON_GOOGLE_HOME)
         >> saveState
         >> processGoogleHomePage w) m
  | ON_GOOGLE_HOME =>
      if JsString.includes "google.com" (hostname loc)
         && ((pathname loc =? "/") || (pathname loc =? "/webhp"))
      then processGoogleHomePage w m
      else recover m
  | SCRAPING_RESULTS =>
      if JsString.includes "/search?q=" (loc_href loc)
      then processSearchResultsPage w m
      else recover m
  | FINISHED => displayAndClearFinalResults m
  end.

(** Lines 122-300. *)
Definition startFullGoogleSearchAutomation
  (w : Window) (keyword0 : option string) (storage : Storage) : Machine :=
  match loadState keyword0 (start keyword0 storage) with
  | (true, m) => dispatch w m
  | (false, m) => m
  end.

(** Lines 307-329: the hook run on every page load.  The timer it sets
    calls the controller with the stored keyword.  The result is what
    the load wrote to the console and did, oldest first, and the store
    it leaves. *)
Definition onPageLoad (w : Window) (storage : Storage) : list Event * Storage :=
  match storage with
  | Some (Stored storedState) =>
      if given (keyword storedState)
         && negb (phase_eqb (currentPhase storedState) FINISHED) then
        let m := startFullGoogleSearchAutomation w (keyword storedState) storage in
        (Console LLog MsgHookResuming :: trace m, sessionStorage m)
      else if phase_eqb (currentPhase storedState) FINISHED then
        ([Console LLog MsgHookFinished], storage)
      else ([], storage)
  | Some Corrupt => ([Console LError ErrHookParse; RemoveItem], None)
  | None => ([Console LLog MsgHookIdle], storage)
  end.

(** A browsing session: one page load after the other, each page given
    by its [Window]. *)
Fixpoint pageLoads (ws : list Window) (storage : Storage) : list Event * Storage :=
  match ws with
  | [] => ([], storage)
  | w :: rest =>
      let (evs, storage') := onPageLoad w storage in
      let (evs', storage'') := pageLoads rest storage' in
      (evs ++ evs', storage'')
  end.

Local Close Scope action_scope.

(* ================================================================== *)
(** ** Vocabulary of the properties *)
(* ================================================================== *)

(** The pair that identifies an entry of [allResults]. *)
Definition entryKey (r : ResultRecord) : string * string := (title r, url r).

(** No two entries share both title and url. *)
Definition uniqueEntries (l : list ResultRecord) : Prop := NoDup (map entryKey l).

(** A navigation action: an assignment to the location, or a click. *)
Definition isNavigation (e : Event) : bool :=
  match e with
  | Navigate _ | Click _ => true
  | _ => false
  end.

Definition navigations (t : list Event) : nat := length (filter isNavigation t).

Definition isError (e : Event) : bool :=
  match e with
  | Console LError _ => true
  | _ => false
  end.

Definition isSetItem (e : Event) : bool :=
  match e with
  | SetItem _ => true
  | _ => false
  end.

(** An execution of the SCRAPING_RESULTS phase announces itself on
    entry (line 260), and nothing else writes that message. *)
Definition isScrape (e : Event) : bool :=
  match e with
  | Console LLog MsgOnResults => true
  | _ => false
  end.

Definition scrapes (t : list Event) : nat := length (filter isScrape t).

(** Stores that a session can produce, starting with nothing stored:
    direct calls with any keyword on any page, and page loads. *)
Inductive reachable : Storage -> Prop :=
| reach_fresh : reachable None
| reach_call w k s :
    reachable s -> reachable (sessionStorage (startFullGoogleSearchAutomation w k s))
| reach_load w s :
    reachable s -> reachable (snd (onPageLoad w s)).

(** Every state held by the store has unique entries. *)
Definition storeUnique (storage : Storage) : Prop :=
  forall st, storage = Some (Stored st) -> uniqueEntries (allResults st).

(** Both the variable [state] and the store have unique entries. *)
Definition Good (m : Machine) : Prop :=
  uniqueEntries (allResults (state m)) /\ storeUnique (sessionStorage m).

Definition calm (e : Event) : bool := negb (isNavigation e).

(** Nothing in the log is a navigation. *)
Definition Quiet (m : Machine) : Prop := forallb calm (log m) = true.

(** Either no navigation was attempted, or exactly one was, as the very
    last action, right after a write of the current state. *)
Definition Checkpointed (m : Machine) : Prop :=
  Quiet m
  \/ exists e older,
       log m = e :: SetItem (state m) :: older
       /\ isNavigation e = true
       /\ forallb calm older = true
       /\ sessionStorage m = Some (Stored (state m)).

(** The page does not fit the phase: the cases that lines 204 and 206
    send to the recovery branch. *)
Definition mismatch (w : Window) (p : Phase) : bool :=
  match p with
  | ON_GOOGLE_HOME =>
      negb (JsString.includes "google.com" (hostname (location w))
            && ((pathname (location w) =? "/") || (pathname (location w) =? "/webhp")))
  | SCRAPING_RESULTS => negb (JsString.includes "/search?q=" (loc_href (location w)))
  | INITIATE_SEARCH | FINISHED => false
  end.

(** The page is a results page (line 206). *)
Definition onResultsPage (w : Window) : bool :=
  JsString.includes "/search?q=" (loc_href (location w)).

(** The next-page control is missing (line 286). *)
Definition noNextPage (d : Document) : bool :=
  match q_nextPageButton d with
  | Some nextPageButton => negb (truthy (href nextPageButton))
  | None => true
  end.

(** The title and link the strategies of lines 26-66 settle on. *)
Definition resolved (c : Candidate) : Locals :=
  videoFallback c (generalLinkFallback c (resolveTitleLink c)).




(** The candidate's processing throws. *)
Definition throws (w : Window) (c : Candidate) : Prop :=
  exists e, fst (processCandidate w c []) = inl e.

(** A computation that leaves the [results] array alone. *)
Definition stateless {A} (m : Eff A) : Prop :=
  forall rs, m rs = (fst (m []), rs).

(** The records one candidate contributes. *)
Definition recordsOf (w : Window) (c : Candidate) : list ResultRecord :=
  snd (extractOne w c []).


(* ================================================================== *)
(** ** Sample pages *)
(* ================================================================== *)

Module Sample.

(** A plain reading of [URL.search]: from the first [?] on, without
    the fragment; never throws. *)
Fixpoint dropFragment (s : string) : string :=
  match s with
  | EmptyString => EmptyString
  | String c r => if (c =? "#")%char then EmptyString else String c (dropFragment r)
  end.

Fixpoint fromQuestionMark (s : string) : string :=
  match s with
  | EmptyString => EmptyString
  | String c r => if (c =? "?")%char then s else fromQuestionMark r
  end.

Definition search (u : string) : option string :=
  Some (fromQuestionMark (dropFragment u)).

Definition anchor (h text : string) : Element :=
  {| tagName := "A"; href := VString h; textContent := text; q_heading := None |}.

(** The anchor of [<h3><a href=h>text</a></h3>], as ['h3 a'] finds it. *)
Definition headedAnchor (h text : string) : Element :=
  {| tagName := "A"; href := VString h; textContent := text; q_heading := None |}.

(** An anchor inside an [svg]: its [href] is an object. *)
Definition svgAnchor : Element :=
  {| tagName := "a"; href := VObject; textContent := "icon"; q_heading := None |}.

(** An organic result: a link inside the heading. *)
Definition organic (h text : string) : Candidate :=
  {| q_titleLink := Some (headedAnchor h text); q_h3 := None;
     q_generalLink := Some (anchor h text);
     matches_RzdJxc := false; q_videoTitle := None; q_videoLink := None;
     q_cite := None; q_snippets := [];
     strippedText := "A short description of the page." |}.

(** A container with no heading, only a link with some text. *)
Definition linkOnly (h text : string) : Candidate :=
  {| q_titleLink := None; q_h3 := None; q_generalLink := Some (anchor h text);
     matches_RzdJxc := false; q_videoTitle := None; q_videoLink := None;
     q_cite := None; q_snippets := [];
     strippedText := "A short description of the page." |}.

(** A container whose first link is an SVG anchor. *)
Definition broken : Candidate :=
  {| q_titleLink := Some svgAnchor; q_h3 := None; q_generalLink := None;
     matches_RzdJxc := false; q_videoTitle := None; q_videoLink := None;
     q_cite := None; q_snippets := []; strippedText := "" |}.

Definition nextLink : Element := anchor "https://www.google.com/search?q=rocq&start=10" "Next".

Definition resultsPage (cands : list Candidate) (next : option Element) : Window :=
  {| location := {| hostname := "www.google.com"; pathname := "/search";
                    loc_href := "https://www.google.com/search?q=rocq" |};
     document := {| resultElements := cands; q_searchInput := true;
                    q_searchButton := None; q_submitButtons := [];
                    q_nextPageButton := next |};
     URL_search := search |}.

Definition searchBtn : Button := {| name := "btnK"; ariaLabel := Some "Google Search" |}.

Definition homePage (input : bool) (btn : option Button) : Window :=
  {| location := {| hostname := "www.google.com"; pathname := "/";
                    loc_href := "https://www.google.com/" |};
     document := {| resultElements := []; q_searchInput := input;
                    q_searchButton := btn; q_submitButtons := [searchBtn];
                    q_nextPageButton := None |};
     URL_search := search |}.

Definition elsewhere : Window :=
  {| location := {| hostname := "example.com"; pathname := "/page";
                    loc_href := "https://example.com/page" |};
     document := {| resultElements := []; q_searchInput := false;
                    q_searchButton := None; q_submitButtons := [];
                    q_nextPageButton := None |};
     URL_search := search |}.

Definition scraping (page limit : nat) (rs : list ResultRecord) : WorkflowState :=
  {| keyword := Some "rocq"; currentPageNum := page; allResults := rs;
     currentPhase := SCRAPING_RESULTS; maxPages := limit |}.

Definition running (st : WorkflowState) : Machine :=
  {| state := st; sessionStorage := Some (Stored st); log := []; uncaught := None |}.

Definition wrapped : string :=
  "https://www.google.com/url?q=https://example.com/target&sa=U".

Definition pageA : Window :=
  resultsPage [organic "https://a.org/" "First result";
               organic "https://a.org/" "First result";
               broken;
               organic wrapped "Example target"]
              (Some nextLink).

Definition pageB : Window :=
  resultsPage [organic "https://a.org/" "First result";
               organic "https://b.org/" "Second result"]
              (Some nextLink).

(** A session: the search is started on the home page, then the first
    results page loads. *)
Definition afterHome : Storage :=
  sessionStorage
    (startFullGoogleSearchAutomation (homePage true (Some searchBtn)) (Some "rocq") None).

Definition afterPageA : Storage := snd (onPageLoad pageA afterHome).

End Sample.

(* ================================================================== *)
(** ** The HTML parser helpers: [extractTableData], [extractLinks] *)
(* ================================================================== *)

Module HtmlParser.

(** The own properties of an object made by [{}], with string values.
    Assigning to an existing property replaces its value in place; the
    order in which JavaScript enumerates the properties is not
    modelled. *)
Definition JsObject := list (string * string).

Fixpoint setOwn (k v : string) (o : JsObject) : JsObject :=
  match o with
  | [] => [(k, v)]
  | (k', v') :: rest =>
      if k' =? k then (k', v) :: rest else (k', v') :: setOwn k v rest
  end.

(** [o[k] = v] for a string [v].  The key [__proto__] is an accessor of
    [Object.prototype] whose setter ignores a value that is not an
    object: the assignment does nothing.  Every other key becomes an own
    property. *)
Definition objSet (k v : string) (o : JsObject) : JsObject :=
  if k =? "__proto__" then o else setOwn k v o.

(** The own property [k] of [o]; [None] when [o] has none.  (Reading
    [o[k]] then goes to [Object.prototype].) *)
Fixpoint objGet (k : string) (o : JsObject) : option string :=
  match o with
  | [] => None
  | (k', v') :: rest => if k' =? k then Some v' else objGet k rest
  end.

(** A [tr] of the table, with the [textContent] of the cells that
    [querySelectorAll('th')] and [querySelectorAll('td')] find in it. *)
Record Row := {
  q_th : list string;
  q_td : list string
}.

(** The template literal [`column${j}`]. *)
Definition columnName (j : nat) : string :=
  "column" ++ DecimalString.NilEmpty.string_of_uint (Nat.to_uint j).

(** Lines 382-385: the inner loop, [j] running up to
    [Math.min(headers.length, cells.length)]. *)
Fixpoint fillRow (j : nat) (headers cells : list string) (rowData : JsObject)
  : JsObject :=
  match headers, cells with
  | h :: hs, c :: cs =>
      fillRow (S j) hs cs
        (objSet (if JsString.nonEmpty h then h else columnName j)
                (JsString.trim c) rowData)
  | _, _ => rowData
  end.

(** Lines 377-388: the loop over the rows from index 1 on. *)
Fixpoint dataRows (headers : list string) (rows : list Row) : list JsObject :=
  match rows with
  | [] => []
  | row :: rest =>
      match q_td row with
      | [] => dataRows headers rest
      | cells => fillRow 0 headers cells [] :: dataRows headers rest
      end
  end.

(** Lines 349-391.  [table] is what [document.querySelector] finds and,
    when it finds a table, the rows [querySelectorAll('tr')] returns.
    That result is a [NodeList], which has no [shift] method: the call
    on line 371 throws. *)
Definition extractTableData (table : option (list Row)) : Exn + list JsObject :=
  match table with
  | None => inr []
  | Some [] => inr []
  | Some (first :: rest) =>
      match q_th first with
      | _ :: _ => inr (dataRows (map JsString.trim (q_th first)) rest)
      | [] => inl TypeError
      end
  end.

(** An [a] element as [extractLinks] reads it. *)
Record Anchor := {
  a_href : JsValue;
  a_textContent : string;
  a_title : string
}.

(** The objects [extractLinks] returns. *)
Record Link := {
  text : string;
  url : string;
  title : string
}.

(** Lines 406-414: the loop.  Calling [startsWith] on a truthy [href]
    that is not a string throws. *)
Fixpoint collectLinks (links : list Anchor) (result : list Link) : Exn + list Link :=
  match links with
  | [] => inr result
  | link :: rest =>
      match a_href link with
      | VUndefined => collectLinks rest result
      | VObject => inl TypeError
      | VString h =>
          if JsString.nonEmpty h && negb (JsString.startsWith "javascript:" h) then
            collectLinks rest
              (result ++ [{| text := JsString.trim (a_textContent link);
                             url := h;
                             title := a_title link |}])
          else collectLinks rest result
      end
  end.

(** Lines 399-417.  [container] is what [document.querySelector] finds
    and, when it finds an element, the anchors under it. *)
Definition extractLinks (container : option (list Anchor)) : Exn + list Link :=
  match container with
  | None => inr []
  | Some links => collectLinks links []
  end.

(** The rows of a table that yield a data row. *)
Definition hasCells (row : Row) : bool :=
  match q_td row with
  | [] => false
  | _ :: _ => true
  end.

(** The anchors [extractLinks] keeps. *)
Definition keeps (link : Anchor) : bool :=
  match a_href link with
  | VString h => JsString.nonEmpty h && negb (JsString.startsWith "javascript:" h)
  | _ => false
  end.

Definition isSvgAnchor (link : Anchor) : bool :=
  match a_href link with
  | VObject => true
  | _ => false
  end.

Definition toLink (link : Anchor) : Link :=
  {| text := JsString.trim (a_textContent link);
     url := toString (a_href link);
     title := a_title link |}.

(** A price list: a header row, two data rows and a separator row. *)
Definition priceTable : list Row :=
  [ {| q_th := ["Item "; "Price"]; q_td := [] |};
    {| q_th := []; q_td := ["Tea"; " 3 "] |};
    {| q_th := []; q_td := [] |};
    {| q_th := []; q_td := ["Milk"; "2"; "extra"] |} ].

Definition pageAnchors : list Anchor :=
  [ {| a_href := VString "https://a.org/"; a_textContent := " Home "; a_title := "" |};
    {| a_href := VString "javascript:void(0)"; a_textContent := "Menu"; a_title := "" |};
    {| a_href := VString ""; a_textContent := "Top"; a_title := "" |};
    {| a_href := VString "https://a.org/about"; a_textContent := "About"; a_title := "Us" |} ].

End HtmlParser.

(** A result whose heading sits inside the anchor: the title query
    returns the [h3], which has no [href]. *)
Definition headingInAnchor : Candidate :=
  {| q_titleLink := Some {| tagName := "H3"; href := VUndefined;
                            textContent := "A page title"; q_heading := None |};
     q_h3 := None;
     q_generalLink := Some (Sample.anchor "https://a.org/" "A page title");
     matches_RzdJxc := false; q_videoTitle := None; q_videoLink := None;
     q_cite := None; q_snippets := [];
     strippedText := "A short description of the page." |}.

(** A wrapper whose destination is written with escapes. *)
Definition wrappedEscaped : string :=
  "https://www.google.com/url?q=https%3A%2F%2Fexample.com%2Ftarget&sa=U".


(** The page Google shows in place of results when it asks for a
    check: it is on google.com but is no results page. *)
Definition sorryPage : Window :=
  {| location := {| hostname := "www.google.com"; pathname := "/sorry/index";
                    loc_href := "https://www.google.com/sorry/index" |};
     document := {| resultElements := []; q_searchInput := false;
                    q_searchButton := None; q_submitButtons := [];
                    q_nextPageButton := None |};
     URL_search := Sample.search |}.

(** A results page, then the check page, then the home page again. *)
Definition restartCycle : list Window :=
  [Sample.pageA; sorryPage; Sample.homePage true (Some Sample.searchBtn)].

(** Eleven such rounds. *)
Definition restartRun : list Window := concat (repeat restartCycle 11).

(* ================================================================== *)
(** ** Further vocabulary *)
(* ================================================================== *)




(** The state is written to the store with phase FINISHED. *)
Definition isFinishedWrite (e : Event) : bool :=
  match e with
  | SetItem s => phase_eqb (currentPhase s) FINISHED
  | _ => false
  end.

(** The state is one the controller builds: a keyword, a page number
    between 1 and the page limit, and the page limit of the script. *)
Definition wellFormed (st : WorkflowState) : Prop :=
  given (keyword st) = true
  /\ 1 <= currentPageNum st <= maxPages st
  /\ maxPages st = MAX_PAGES_TO_SCRAPE.

(** The store holds nothing, or a well-formed state that is not
    FINISHED. *)
Definition storeWellFormed (storage : Storage) : Prop :=
  storage <> Some Corrupt
  /\ forall st, storage = Some (Stored st) ->
       wellFormed st /\ currentPhase st <> FINISHED.

(** The invocation has cleared the store, or it has written the current
    state, not FINISHED, and navigated right after. *)
Definition Handed (m : Machine) : Prop :=
  sessionStorage m = None
  \/ (sessionStorage m = Some (Stored (state m))
      /\ currentPhase (state m) <> FINISHED
      /\ exists e older, log m = e :: SetItem (state m) :: older
                         /\ isNavigation e = true).

(** The page is the Google home page, as line 191 tests it. *)
Definition atGoogleRoot (w : Window) : bool :=
  JsString.includes "google.com" (hostname (location w))
  && (pathname (location w) =? "/").

(** Line 108 holds of the record, and its summary is not empty. *)
Definition validRecord (r : ResultRecord) : Prop :=
  title r <> "" /\ title r <> NA
  /\ url r <> "" /\ url r <> NA
  /\ JsString.startsWith "javascript:void" (url r) = false
  /\ summary r <> "".

(** Two entries with the same title and url. *)
Definition sameKey (a b : ResultRecord) : Prop :=
  title a = title b /\ url a = url b.

(* ================================================================== *)
(** ** Merging a page into [allResults] *)
(* ================================================================== *)

Section Merge.

Lemma sameEntry_key newItem existingItem :
  sameEntry newItem existingItem = true <-> entryKey existingItem = entryKey newItem.
Proof.
  unfold sameEntry, entryKey. rewrite andb_true_iff, !String.eqb_eq.
  split; [intros [-> ->]; reflexivity | intros H; inversion H; auto].
Qed.

Lemma seen_iff newItem acc :
  existsb (sameEntry newItem) acc = true <-> In (entryKey newItem) (map entryKey acc).
Proof.
  rewrite existsb_exists, in_map_iff. split.
  - intros (e & Hin & Hs). exists e. split; [now apply sameEntry_key | assumption].
  - intros (e & Hk & Hin). exists e. split; [assumption | now apply sameEntry_key].
Qed.

Lemma unseen_iff newItem acc :
  existsb (sameEntry newItem) acc = false <-> ~ In (entryKey newItem) (map entryKey acc).
Proof.
  rewrite <- seen_iff. destruct (existsb (sameEntry newItem) acc); intuition congruence.
Qed.

(** What the merge appends: only entries that were not there. *)
Lemma mergeResults_appends currentPageData :
  forall all, exists added,
    mergeResults all currentPageData = all ++ added
    /\ (forall r, In r added -> ~ In (entryKey r) (map entryKey all)).
Proof.
  unfold mergeResults.
  induction currentPageData as [|newItem rest IH]; intros all; simpl.
  - exists []. rewrite app_nil_r. split; [reflexivity | intros r []].
  - destruct (existsb (sameEntry newItem) all) eqn:Hseen.
    + apply IH.
    + destruct (IH (all ++ [newItem])) as (added & Heq & Hnew).
      exists (newItem :: added). split.
      * rewrite Heq, <- app_assoc. reflexivity.
      * intros r [<- | Hr].
        -- now apply unseen_iff.
        -- intros Hin. apply (Hnew r Hr).
           rewrite map_app, in_app_iff. now left.
Qed.

Lemma uniqueEntries_snoc acc newItem :
  uniqueEntries acc -> ~ In (entryKey newItem) (map entryKey acc) ->
  uniqueEntries (acc ++ [newItem]).
Proof.
  unfold uniqueEntries. intros Hnd Hnew. rewrite map_app. simpl.
  induction (map entryKey acc) as [|k ks IH]; simpl.
  - constructor; [intros [] | constructor].
  - inversion Hnd as [|? ? Hk Hks]; subst. constructor.
    + rewrite in_app_iff. intros [Hin | [Heq | []]]; [now apply Hk |].
      apply Hnew. now left.
    + apply IH; [assumption |]. intros Hin. apply Hnew. now right.
Qed.

Lemma mergeResults_unique currentPageData :
  forall all, uniqueEntries all -> uniqueEntries (mergeResults all currentPageData).
Proof.
  unfold mergeResults.
  induction currentPageData as [|newItem rest IH]; intros all Hall; simpl.
  - assumption.
  - destruct (existsb (sameEntry newItem) all) eqn:Hseen.
    + now apply IH.
    + apply IH, uniqueEntries_snoc; [assumption | now apply unseen_iff].
Qed.

End Merge.

(** C4.  Merging the records of a page into [allResults] never makes it
    shorter: the result is the old collection followed by the appended
    records; and no appended record has the title and url of an entry
    that was already there. *)
Theorem merge_monotone (all currentPageData : list ResultRecord) :
  length all <= length (mergeResults all currentPageData)
  /\ exists added,
       mergeResults all currentPageData = all ++ added
       /\ forall r existing, In r added -> In existing all ->
            ~ (title existing = title r /\ url existing = url r).
Proof.
  destruct (mergeResults_appends currentPageData all) as (added & Heq & Hnew).
  split.
  - rewrite Heq, length_app. lia.
  - exists added. split; [assumption |].
    intros r existing Hr Hex [Ht Hu]. apply (Hnew r Hr).
    apply in_map_iff. exists existing. split; [| assumption].
    unfold entryKey. now rewrite Ht, Hu.
Qed.

(* ================================================================== *)
(** ** Uniqueness of entries across the workflow *)
(* ================================================================== *)

Create HintDb good.

Section Uniqueness.

Lemma Good_emit e m : Good m -> Good (emit e m).
Proof. intros [Hs Hst]; split; assumption. Qed.

Lemma Good_console lvl msg m : Good m -> Good (console lvl msg m).
Proof. apply Good_emit. Qed.

Lemma Good_setItem m : Good m -> Good (setItem m).
Proof.
  intros [Hs Hst]; split; [assumption |].
  intros st Heq. simpl in Heq. injection Heq as <-. assumption.
Qed.

Lemma Good_removeItem m : Good m -> Good (removeItem m).
Proof. intros [Hs Hst]; split; [assumption | intros st Heq; discriminate]. Qed.

Lemma Good_escape e m : Good m -> Good (escape e m).
Proof. intros [Hs Hst]; split; assumption. Qed.

Lemma Good_setState f m :
  (forall s, uniqueEntries (allResults s) -> uniqueEntries (allResults (f s))) ->
  Good m -> Good (setState f m).
Proof. intros Hf [Hs Hst]; split; [now apply Hf | assumption]. Qed.

Lemma Good_withPhase p m : Good m -> Good (setState (withPhase p) m).
Proof. apply Good_setState. auto. Qed.

Lemma Good_nextPage m : Good m -> Good (setState nextPage m).
Proof. apply Good_setState. auto. Qed.

Lemma Good_restart k m : Good m -> Good (setState (restartWith k) m).
Proof. apply Good_setState. intros; constructor. Qed.

Lemma Good_merge data m :
  Good m ->
  Good (setState (fun s => withResults (mergeResults (allResults s) data) s) m).
Proof. apply Good_setState. intros s. apply mergeResults_unique. Qed.

Lemma Good_restore parsedState m :
  storeUnique (sessionStorage m) -> sessionStorage m = Some (Stored parsedState) ->
  Good (setState (fun _ => parsedState) m).
Proof. intros Hst Heq. split; [now apply Hst | assumption]. Qed.

#[local] Hint Resolve Good_emit Good_console Good_setItem Good_removeItem Good_escape
  Good_withPhase Good_nextPage Good_restart Good_merge : good.

Lemma Good_display m : Good m -> Good (displayAndClearFinalResults m).
Proof. unfold displayAndClearFinalResults, andThen. auto with good. Qed.

#[local] Hint Resolve Good_display : good.

Lemma Good_finish why m : Good m -> Good (finish why m).
Proof. unfold finish, andThen. auto 10 with good. Qed.

Lemma Good_home w m : Good m -> Good (processGoogleHomePage w m).
Proof.
  intros H. unfold processGoogleHomePage, andThen, saveState.
  destruct (q_searchInput (document w)); [destruct (q_searchButton (document w)) |];
    auto 12 with good.
Qed.

Lemma Good_mergePage data m : Good m -> Good (mergePage data m).
Proof. intros H. destruct data; unfold mergePage, andThen; auto 8 with good. Qed.

Lemma Good_paginate w m : Good m -> Good (paginate w m).
Proof.
  intros H. unfold paginate.
  destruct (maxPages (state m) <=? currentPageNum (state m))%nat;
    [now apply Good_finish |].
  destruct (q_nextPageButton (document w)) as [btn |]; [| now apply Good_finish].
  destruct (truthy (href btn)); [| now apply Good_finish].
  unfold andThen, saveState. auto 10 with good.
Qed.

Lemma Good_results w m : Good m -> Good (processSearchResultsPage w m).
Proof.
  intros H. unfold processSearchResultsPage.
  destruct (extractCurrentPageGoogleResults w) as [e | data]; [auto with good |].
  unfold andThen. apply Good_paginate, Good_mergePage. auto with good.
Qed.

Lemma Good_recover m : Good m -> Good (recover m).
Proof.
  intros H. unfold recover, andThen, saveState.
  destruct (given _); auto 10 with good.
Qed.

#[local] Hint Resolve Good_home Good_results Good_recover : good.

Lemma Good_dispatch w m : Good m -> Good (dispatch w m).
Proof.
  intros H. unfold dispatch.
  destruct (currentPhase (state (console LLog MsgPhase m)));
    repeat match goal with
           | |- context [if ?b then _ else _] => destruct b
           end;
    unfold andThen, saveState; auto 10 with good.
Qed.

Lemma Good_load k storage :
  storeUnique storage -> Good (snd (loadState k (start k storage))).
Proof.
  intros Hst.
  assert (H0 : Good (start k storage)) by (split; [constructor | assumption]).
  unfold loadState.
  destruct storage as [[| parsedState] |]; simpl sessionStorage; cbv iota.
  - destruct (negb (given k)); simpl; auto with good.
  - assert (Hp : Good (setState (fun _ => parsedState) (start k (Some (Stored parsedState)))))
      by (apply Good_restore; [assumption | reflexivity]).
    destruct (given k && keyword_eqb (keyword parsedState) k);
      [| destruct (given k);
         [| destruct (negb false && given (keyword parsedState))]];
      match goal with
      | |- context [if ?b then _ else _] => destruct b
      end; simpl snd; unfold andThen; auto 8 with good.
  - destruct (negb (given k)); simpl; auto with good.
Qed.

Lemma Good_run w k storage :
  storeUnique storage -> Good (startFullGoogleSearchAutomation w k storage).
Proof.
  intros Hst. unfold startFullGoogleSearchAutomation.
  pose proof (Good_load k storage Hst) as H.
  destruct (loadState k (start k storage)) as [[|] m]; simpl in H;
    [now apply Good_dispatch | assumption].
Qed.

Lemma storeUnique_load w storage :
  storeUnique storage -> storeUnique (snd (onPageLoad w storage)).
Proof.
  intros Hst. unfold onPageLoad.
  destruct storage as [[| storedState] |]; simpl; try (intros st Heq; discriminate).
  destruct (given (keyword storedState) && _); simpl.
  - exact (proj2 (Good_run w _ _ Hst)).
  - destruct (phase_eqb _ _); assumption.
Qed.

Lemma reachable_unique storage : reachable storage -> storeUnique storage.
Proof.
  induction 1 as [| w k s _ IH | w s _ IH].
  - intros st Heq; discriminate.
  - exact (proj2 (Good_run w k s IH)).
  - now apply storeUnique_load.
Qed.

End Uniqueness.

(** C2.  In every store that a session starting with nothing stored can
    produce, by direct calls and page loads in any order on any pages,
    the stored state has no two entries with the same title and url;
    and so does the state variable at the end of any further call. *)
Theorem allResults_unique (storage : Storage) :
  reachable storage ->
  (forall st, storage = Some (Stored st) -> NoDup (map entryKey (allResults st)))
  /\ (forall w k,
        NoDup (map entryKey
                 (allResults (state (startFullGoogleSearchAutomation w k storage))))).
Proof.
  intros Hr. pose proof (reachable_unique storage Hr) as Hst. split.
  - exact Hst.
  - intros w k. exact (proj1 (Good_run w k storage Hst)).
Qed.

(* ================================================================== *)
(** ** One navigation per invocation, after a checkpoint *)
(* ================================================================== *)

Create HintDb quiet.

Section Checkpoint.

Lemma Quiet_emit e m : isNavigation e = false -> Quiet m -> Quiet (emit e m).
Proof. unfold Quiet, calm. simpl. intros -> ->. reflexivity. Qed.

Lemma Quiet_console lvl msg m : Quiet m -> Quiet (console lvl msg m).
Proof. now apply Quiet_emit. Qed.

Lemma Quiet_table rows m : Quiet m -> Quiet (emit (ConsoleTable rows) m).
Proof. now apply Quiet_emit. Qed.

Lemma Quiet_setValue v m : Quiet m -> Quiet (emit (SetValue v) m).
Proof. now apply Quiet_emit. Qed.

Lemma Quiet_setItem m : Quiet m -> Quiet (setItem m).
Proof. unfold Quiet. simpl. auto. Qed.

Lemma Quiet_removeItem m : Quiet m -> Quiet (removeItem m).
Proof. unfold Quiet. simpl. auto. Qed.

Lemma Quiet_setState f m : Quiet m -> Quiet (setState f m).
Proof. unfold Quiet. simpl. auto. Qed.

Lemma Quiet_escape e m : Quiet m -> Quiet (escape e m).
Proof. unfold Quiet. simpl. auto. Qed.

Lemma Quiet_Checkpointed m : Quiet m -> Checkpointed m.
Proof. now left. Qed.

(** The only way a navigation enters the log: right after [saveState]. *)
Lemma checkpoint_then_navigate e m :
  isNavigation e = true -> Quiet m -> Checkpointed (emit e (saveState m)).
Proof.
  intros He Hq. right. exists e, (log m). repeat split; assumption.
Qed.

#[local] Hint Resolve Quiet_console Quiet_table Quiet_setValue Quiet_setItem
  Quiet_removeItem Quiet_setState Quiet_escape Quiet_Checkpointed : quiet.

Lemma Quiet_display m : Quiet m -> Quiet (displayAndClearFinalResults m).
Proof. unfold displayAndClearFinalResults, andThen. auto with quiet. Qed.

Lemma Quiet_finish why m : Quiet m -> Quiet (finish why m).
Proof.
  intros H. unfold finish, andThen, saveState.
  apply Quiet_display. auto with quiet.
Qed.

#[local] Hint Resolve Quiet_display Quiet_finish : quiet.

Lemma Checkpointed_home w m : Quiet m -> Checkpointed (processGoogleHomePage w m).
Proof.
  intros H. unfold processGoogleHomePage, andThen.
  destruct (q_searchInput (document w)); [destruct (q_searchButton (document w)) |];
    try (apply checkpoint_then_navigate; [reflexivity |]); auto 10 with quiet.
Qed.

Lemma Quiet_mergePage data m : Quiet m -> Quiet (mergePage data m).
Proof. intros H. destruct data; unfold mergePage, andThen; auto 8 with quiet. Qed.

Lemma Checkpointed_paginate w m : Quiet m -> Checkpointed (paginate w m).
Proof.
  intros H. unfold paginate.
  destruct (maxPages (state m) <=? currentPageNum (state m))%nat;
    [auto with quiet |].
  destruct (q_nextPageButton (document w)) as [btn |]; [| auto with quiet].
  destruct (truthy (href btn)); [| auto with quiet].
  unfold andThen. apply checkpoint_then_navigate; [reflexivity |].
  auto with quiet.
Qed.

Lemma Checkpointed_results w m : Quiet m -> Checkpointed (processSearchResultsPage w m).
Proof.
  intros H. unfold processSearchResultsPage.
  destruct (extractCurrentPageGoogleResults w) as [e | data]; [auto with quiet |].
  unfold andThen. apply Checkpointed_paginate, Quiet_mergePage. auto with quiet.
Qed.

Lemma Checkpointed_recover m : Quiet m -> Checkpointed (recover m).
Proof.
  intros H. unfold recover, andThen.
  destruct (given _); [| auto with quiet].
  apply checkpoint_then_navigate; [reflexivity |]. auto with quiet.
Qed.

Lemma Checkpointed_dispatch w m : Quiet m -> Checkpointed (dispatch w m).
Proof.
  intros H. unfold dispatch.
  assert (H1 : Quiet (console LLog MsgPhase m)) by auto with quiet.
  destruct (currentPhase (state (console LLog MsgPhase m)));
    repeat match goal with
           | |- context [if ?b then _ else _] => destruct b
           end;
    unfold andThen;
    first [ apply Checkpointed_home | apply Checkpointed_results
          | apply Checkpointed_recover
          | apply checkpoint_then_navigate; [reflexivity |]
          | idtac ];
    auto 8 with quiet.
Qed.

Lemma Quiet_load k storage : Quiet (snd (loadState k (start k storage))).
Proof.
  assert (H0 : Quiet (start k storage)) by reflexivity.
  unfold loadState.
  destruct storage as [[| parsedState] |]; simpl sessionStorage; cbv iota.
  - destruct (negb (given k)); simpl; auto with quiet.
  - destruct (given k && keyword_eqb (keyword parsedState) k);
      [| destruct (given k);
         [| destruct (negb false && given (keyword parsedState))]];
      match goal with
      | |- context [if ?b then _ else _] => destruct b
      end; simpl snd; unfold andThen; auto 8 with quiet.
  - destruct (negb (given k)); simpl; auto with quiet.
Qed.

Lemma Checkpointed_run w k storage :
  Checkpointed (startFullGoogleSearchAutomation w k storage).
Proof.
  unfold startFullGoogleSearchAutomation.
  pose proof (Quiet_load k storage) as H.
  destruct (loadState k (start k storage)) as [[|] m]; simpl in H;
    [now apply Checkpointed_dispatch | now left].
Qed.

Lemma calm_filter l : forallb calm l = true -> filter isNavigation l = [].
Proof.
  induction l as [|x l IH]; simpl; [reflexivity |].
  rewrite andb_true_iff. unfold calm at 1. intros [Hx Hl].
  destruct (isNavigation x); [discriminate | auto].
Qed.

Lemma calm_rev l : forallb calm l = true -> forallb calm (rev l) = true.
Proof.
  rewrite !forallb_forall. intros H x Hx. apply H. now apply in_rev.
Qed.

Lemma calm_snoc l x : forallb calm l = true -> isNavigation x = false ->
  forallb calm (l ++ [x]) = true.
Proof. intros Hl Hx. rewrite forallb_app, Hl. unfold calm. simpl. now rewrite Hx. Qed.

(** In a list that is calm up to its last element, a navigation can
    only sit at the end. *)
Lemma navigation_is_last calmPart :
  forall before e after x,
    forallb calm calmPart = true -> isNavigation e = true ->
    before ++ e :: after = calmPart ++ [x] ->
    before = calmPart /\ e = x /\ after = [].
Proof.
  induction calmPart as [|p ps IH]; intros before e after x Hc He Heq.
  - destruct before as [|b before]; simpl in Heq.
    + injection Heq as -> ->. auto.
    + injection Heq as _ Heq. destruct before; discriminate.
  - simpl in Hc. apply andb_true_iff in Hc as [Hp Hps].
    destruct before as [|b before]; simpl in Heq.
    + injection Heq as -> _. unfold calm in Hp. rewrite He in Hp. discriminate.
    + injection Heq as -> Heq.
      destruct (IH before e after x Hps He Heq) as (-> & -> & ->). auto.
Qed.

Lemma calm_no_navigation l before e after :
  forallb calm l = true -> l = before ++ e :: after -> isNavigation e = false.
Proof.
  intros Hc ->. rewrite forallb_app in Hc. apply andb_true_iff in Hc as [_ Hc].
  simpl in Hc. apply andb_true_iff in Hc as [Hc _]. unfold calm in Hc.
  now destruct (isNavigation e).
Qed.

End Checkpoint.

(** C1.  In the trace of any invocation of the controller (any page,
    any keyword, any store content) at most one navigation action
    occurs: an assignment to the location or a click.  When one occurs
    it is the last action of the invocation, and the action right
    before it is the write of the current state to the store. *)
Theorem checkpoint_before_navigation
  (w : Window) (k : option string) (storage : Storage) :
  let m := startFullGoogleSearchAutomation w k storage in
  navigations (trace m) <= 1
  /\ forall before e after,
       trace m = before ++ e :: after -> isNavigation e = true ->
       after = []
       /\ sessionStorage m = Some (Stored (state m))
       /\ exists earlier, before = earlier ++ [SetItem (state m)].
Proof.
  intros m. destruct (Checkpointed_run w k storage) as [Hq | (e0 & older & Hlog & He0 & Hold & Hst)];
    fold m in Hq || fold m in Hlog, Hst.
  - unfold Quiet in Hq. apply calm_rev in Hq. split.
    + unfold navigations, trace. rewrite (calm_filter _ Hq). simpl. lia.
    + intros before e after Heq He.
      rewrite (calm_no_navigation _ _ _ _ Hq Heq) in He. discriminate.
  - assert (Htr : trace m = (rev older ++ [SetItem (state m)]) ++ [e0]).
    { unfold trace. rewrite Hlog. reflexivity. }
    assert (Hcalm : forallb calm (rev older ++ [SetItem (state m)]) = true).
    { apply calm_snoc; [now apply calm_rev | reflexivity]. }
    split.
    + unfold navigations. rewrite Htr, filter_app, (calm_filter _ Hcalm).
      simpl. rewrite He0. simpl. lia.
    + intros before e after Heq He. rewrite Htr in Heq.
      destruct (navigation_is_last _ _ _ _ _ Hcalm He (eq_sym Heq)) as (-> & -> & ->).
      repeat split; [assumption |]. now exists (rev older).
Qed.

(* ================================================================== *)
(** ** The extraction engine *)
(* ================================================================== *)

Section Extraction.

Variable w : Window.

Lemma stateless_ret {A} (a : A) : stateless (ret a).
Proof. intros rs. reflexivity. Qed.

Lemma stateless_throw {A} e : stateless (@throw A e).
Proof. intros rs. reflexivity. Qed.

Lemma stateless_bind {A B} (m : Eff A) (k : A -> Eff B) :
  stateless m -> (forall a, stateless (k a)) -> stateless (bind m k).
Proof.
  intros Hm Hk rs. unfold bind. rewrite (Hm rs).
  destruct (m []) as [[e | a] rs0] eqn:E; simpl.
  - reflexivity.
  - rewrite (Hk a rs), (Hk a rs0). reflexivity.
Qed.

Lemma stateless_foldEff {A B} (f : B -> A -> Eff B) l :
  (forall b a, stateless (f b a)) -> forall b, stateless (foldEff f l b).
Proof.
  intros Hf. induction l as [|a l IH]; intros b; simpl.
  - apply stateless_ret.
  - apply stateless_bind; auto.
Qed.

Lemma stateless_unwrapRedirect u : stateless (unwrapRedirect w u).
Proof.
  intros rs. unfold unwrapRedirect.
  destruct u as [| s |]; try reflexivity.
  destruct (JsString.nonEmpty s && JsString.includes "/url?q=" s); [| reflexivity].
  destruct (URL_search w s); [| reflexivity].
  unfold URLSearchParams.has.
  destruct (URLSearchParams.get _ _); reflexivity.
Qed.

Lemma stateless_snippetStep u parts el : stateless (snippetStep u parts el).
Proof.
  intros rs. unfold snippetStep.
  destruct (sn_closest_h3 el); [reflexivity |].
  destruct (sn_closest_cite el); [reflexivity |].
  destruct (sn_closest_anchor el u) as [[|] |]; try reflexivity.
  destruct (15 <? _)%nat; reflexivity.
Qed.

Lemma stateless_collectSummaryParts c u : stateless (collectSummaryParts c u).
Proof.
  unfold collectSummaryParts. apply stateless_foldEff.
  intros parts els. apply stateless_foldEff. intros b a. apply stateless_snippetStep.
Qed.

(** What [pushIfValid] does to the array, whatever the array holds. *)
Lemma pushIfValid_cases t u d s :
  (exists e, forall rs, pushIfValid t u d s rs = (inl e, rs))
  \/ (forall rs, pushIfValid t u d s rs = (inr tt, rs))
  \/ exists v, u = VString v
       /\ forall rs, pushIfValid t u d s rs
          = (inr tt, rs ++ [{| title := t; url := v; displayUrl := d; summary := s |}]).
Proof.
  unfold pushIfValid.
  destruct (JsString.nonEmpty t && negb (t =? NA) && truthy u); [| now right; left].
  destruct u as [| v |].
  - left. now exists TypeError.
  - destruct (negb (v =? NA) && negb (JsString.startsWith "javascript:void" v)).
    + right; right. now exists v.
    + now right; left.
  - left. now exists TypeError.
Qed.

(** The body of the [try] block either throws and leaves [results] as
    it was, or ends normally having pushed at most one record, whose
    title is the resolved title and whose url is the unwrapped link.
    Which of the three happens does not depend on [results]. *)
Lemma processCandidate_cases c :
  (exists e, forall rs, processCandidate w c rs = (inl e, rs))
  \/ (forall rs, processCandidate w c rs = (inr tt, rs))
  \/ exists r,
       (forall rs, processCandidate w c rs = (inr tt, rs ++ [r]))
       /\ title r = l_title (resolved c)
       /\ fst (unwrapRedirect w (l_url (resolved c)) []) = inr (VString (url r)).
Proof.
  unfold processCandidate. fold (resolved c).
  pose proof (stateless_unwrapRedirect (l_url (resolved c))) as Hu.
  unfold stateless in Hu.
  destruct (unwrapRedirect w (l_url (resolved c)) []) as [[e | u] rs0] eqn:Eu;
    simpl fst in *.
  { left. exists e. intros rs. unfold bind. now rewrite Hu. }
  pose proof (stateless_collectSummaryParts c (toString u)) as Hc.
  unfold stateless in Hc.
  destruct (collectSummaryParts c (toString u) []) as [[e | parts] rs1];
    simpl fst in *.
  { left. exists e. intros rs. unfold bind. now rewrite Hu, Hc. }
  destruct (pushIfValid_cases (l_title (resolved c)) u (resolveDisplayUrl c)
              (resolveSummary c (l_title (resolved c)) parts))
    as [(e & Hp) | [Hp | (v & -> & Hp)]].
  - left. exists e. intros rs. unfold bind. now rewrite Hu, Hc.
  - right; left. intros rs. unfold bind. now rewrite Hu, Hc.
  - right; right.
    exists {| title := l_title (resolved c); url := v;
              displayUrl := resolveDisplayUrl c;
              summary := resolveSummary c (l_title (resolved c)) parts |}.
    split; [| split; reflexivity].
    intros rs. unfold bind. now rewrite Hu, Hc.
Qed.








Lemma extractOne_total c rs :
  extractOne w c rs = (inr tt, rs ++ recordsOf w c).
Proof.
  unfold recordsOf, extractOne, tryCatch.
  destruct (processCandidate_cases c) as [(e & H) | [H | (r & H & _)]];
    rewrite (H rs), (H []); simpl; now rewrite ?app_nil_r.
Qed.

Lemma recordsOf_throws c : throws w c -> recordsOf w c = [].
Proof.
  intros (e & He). unfold recordsOf, extractOne, tryCatch.
  destruct (processCandidate_cases c) as [(e' & H) | [H | (r & H & _)]];
    rewrite (H []) in *; simpl in *; [reflexivity | discriminate ..].
Qed.

Lemma forEach_extractOne cands :
  forall rs,
    forEach (extractOne w) cands rs = (inr tt, rs ++ flat_map (recordsOf w) cands).
Proof.
  induction cands as [|c cands IH]; intros rs; simpl.
  - unfold ret. now rewrite app_nil_r.
  - unfold bind. rewrite extractOne_total, IH, <- app_assoc. reflexivity.
Qed.

Lemma extractFrom_records cands :
  extractFrom w cands = inr (flat_map (recordsOf w) cands).
Proof. unfold extractFrom. now rewrite forEach_extractOne. Qed.

Lemma extract_total :
  extractCurrentPageGoogleResults w
  = inr (flat_map (recordsOf w) (resultElements (document w))).
Proof. apply extractFrom_records. Qed.

End Extraction.

(** C10.  The extraction returns a list for every document, never an
    exception; and when the processing of one candidate throws, the
    list is made of the records of the candidates before it followed by
    the records of the candidates after it, each as extracted on their
    own. *)
Theorem extraction_isolates_failures (w : Window) :
  (exists results, extractCurrentPageGoogleResults w = inr results)
  /\ forall before c after,
       throws w c ->
       exists rb ra,
         extractFrom w before = inr rb
         /\ extractFrom w after = inr ra
         /\ extractFrom w (before ++ c :: after) = inr (rb ++ ra).
Proof.
  split.
  - eexists. apply extract_total.
  - intros before c after Hc.
    exists (flat_map (recordsOf w) before), (flat_map (recordsOf w) after).
    rewrite !extractFrom_records. repeat split.
    rewrite flat_map_app. simpl. now rewrite (recordsOf_throws w c Hc).
Qed.

(* ================================================================== *)
(** ** Query values and their decoding *)
(* ================================================================== *)

Section QueryValues.








End QueryValues.


(** C9 (amended).  When the heading strategies leave the title
    unresolved and found no title link, the fallback takes the first
    anchor with an absolute or [/url] href: its url is the anchor's
    href, and the first line of the anchor's trimmed text becomes the
    title exactly when its length is greater than 5 and less than 150;
    otherwise the title stays unresolved. *)
Theorem general_link_title (c : Candidate) (generalLink : Element) :
  l_titleLinkElement (resolveTitleLink c) = false ->
  l_title (resolveTitleLink c) = NA ->
  q_generalLink c = Some generalLink ->
  let potentialTitle := JsString.firstLine (JsString.trim (textContent generalLink)) in
  let l := generalLinkFallback c (resolveTitleLink c) in
  (5 < String.length potentialTitle < 150 -> l_title l = potentialTitle)
  /\ (~ 5 < String.length potentialTitle < 150 -> l_title l = NA)
  /\ l_url l = href generalLink.
Proof.
  intros Ht Hh Hg potentialTitle l. subst l.
  unfold generalLinkFallback. rewrite Ht, Hh, Hg. simpl.
  fold potentialTitle. unfold acceptsPotentialTitle.
  destruct (Nat.ltb_spec 5 (String.length potentialTitle)) as [H5 | H5];
    destruct (Nat.ltb_spec (String.length potentialTitle) 150) as [H150 | H150];
    rewrite ?andb_false_r; simpl.
  - assert (Hne : JsString.nonEmpty potentialTitle = true).
    { destruct potentialTitle; [simpl in H5; lia | reflexivity]. }
    rewrite Hne. simpl. repeat split; intros; try reflexivity; exfalso; lia.
  - repeat split; intros; try reflexivity; exfalso; lia.
  - repeat split; intros; try reflexivity; exfalso; lia.
  - repeat split; intros; try reflexivity; exfalso; lia.
Qed.

(* ================================================================== *)
(** ** Restoring the state and recovering from a mismatch *)
(* ================================================================== *)

Section Recovery.

Lemma keyword_eqb_eq a b : keyword_eqb a b = true <-> a = b.
Proof.
  destruct a as [x |], b as [y |]; simpl; try (split; congruence).
  rewrite String.eqb_eq. split; congruence.
Qed.

Lemma keyword_eqb_refl a : keyword_eqb a a = true.
Proof. now apply keyword_eqb_eq. Qed.

Lemma keyword_eqb_neq a b : a <> b -> keyword_eqb a b = false.
Proof.
  intros Hne. destruct (keyword_eqb a b) eqn:E; [| reflexivity].
  apply keyword_eqb_eq in E. contradiction.
Qed.

(** The stored state is taken over: same keyword, or none supplied. *)
Lemma load_restored k ps :
  given (keyword ps) = true -> (given k = false \/ k = keyword ps) ->
  exists msg,
    loadState k (start k (Some (Stored ps)))
    = (true, {| state := ps; sessionStorage := Some (Stored ps);
                log := [Console LLog msg]; uncaught := None |}).
Proof.
  intros Hps [Hk | ->]; unfold loadState; simpl.
  - rewrite Hk, Hps. simpl. rewrite Hps. simpl.
    now exists MsgContinueStored.
  - rewrite Hps, keyword_eqb_refl. simpl. rewrite Hps. simpl.
    now exists MsgRestored.
Qed.

(** Another keyword is supplied: the state starts over. *)
Lemma load_reset k ps :
  given k = true -> k <> keyword ps ->
  loadState k (start k (Some (Stored ps)))
  = (true, {| state := initialState k; sessionStorage := Some (Stored ps);
              log := [Console LLog MsgNewKeyword]; uncaught := None |}).
Proof.
  intros Hk Hne. unfold loadState; simpl.
  rewrite Hk, (keyword_eqb_neq (keyword ps) k) by congruence.
  simpl. rewrite Hk. reflexivity.
Qed.

Lemma load_fresh k :
  given k = true -> loadState k (start k None) = (true, start k None).
Proof. intros Hk. unfold loadState; simpl. now rewrite Hk. Qed.

Lemma dispatch_mismatch w m :
  mismatch w (currentPhase (state m)) = true ->
  dispatch w m = recover (console LLog MsgPhase m).
Proof.
  unfold mismatch, dispatch. simpl state.
  destruct (currentPhase (state m)); try discriminate; intros H;
    apply negb_true_iff in H; now rewrite H.
Qed.

(** From the initial state the dispatch does not look at the store or
    at the log it starts with. *)
Lemma dispatch_initial w k storage l :
  let m := dispatch w {| state := initialState k; sessionStorage := storage;
                         log := l; uncaught := None |} in
  let m0 := dispatch w (start k None) in
  state m = state m0 /\ sessionStorage m = sessionStorage m0
  /\ log m = log m0 ++ l /\ uncaught m = uncaught m0.
Proof.
  unfold dispatch, start. simpl.
  destruct (negb _ || negb _); [repeat split |].
  unfold andThen, processGoogleHomePage. simpl.
  destruct (q_searchInput (document w)); [destruct (q_searchButton (document w)) |];
    repeat split.
Qed.

End Recovery.

(** C8.  With no keyword from the caller and none in the store (nothing
    stored, a payload that does not parse, or a stored state without
    keyword), the invocation logs an error and returns: no navigation,
    no write to the store, no exception, and the state is still the
    initial one. *)
Theorem missing_keyword_aborts (w : Window) (k : option string) (storage : Storage) :
  given k = false ->
  storage = None \/ storage = Some Corrupt
  \/ (exists ps, storage = Some (Stored ps) /\ given (keyword ps) = false) ->
  let m := startFullGoogleSearchAutomation w k storage in
  existsb isError (trace m) = true
  /\ navigations (trace m) = 0
  /\ existsb isSetItem (trace m) = false
  /\ state m = initialState k
  /\ uncaught m = None
  /\ (sessionStorage m = storage \/ sessionStorage m = None).
Proof.
  intros Hk [-> | [-> | (ps & -> & Hps)]] m; subst m;
    unfold startFullGoogleSearchAutomation, loadState; simpl;
    rewrite ?Hk; simpl; rewrite ?Hps; simpl; rewrite ?Hk; simpl;
    repeat split; auto.
Qed.

(** C6.  The stored phase does not fit the page the controller runs on.
    - The stored keyword is in force (the caller gives none, or the
      same): the state becomes INITIATE_SEARCH, page 1, no results, same
      keyword; it is written to the store and the browser is sent to
      the Google home page, where the workflow starts over.
    - The caller gives another keyword: the state starts over with that
      keyword and the invocation goes on exactly as a first call does.
    - No keyword anywhere: an error is logged, the store is cleared,
      and nothing else happens. *)
Theorem phase_mismatch_recovery (w : Window) (k : option string) (ps : WorkflowState) :
  mismatch w (currentPhase ps) = true ->
  let m := startFullGoogleSearchAutomation w k (Some (Stored ps)) in
  (given (keyword ps) = true -> given k = false \/ k = keyword ps ->
     currentPhase (state m) = INITIATE_SEARCH
     /\ currentPageNum (state m) = 1
     /\ allResults (state m) = []
     /\ keyword (state m) = keyword ps
     /\ sessionStorage m = Some (Stored (state m))
     /\ exists earlier, trace m = earlier ++ [SetItem (state m); Navigate googleHome])
  /\ (given k = true -> k <> keyword ps ->
     let fresh := startFullGoogleSearchAutomation w k None in
     state (snd (loadState k (start k (Some (Stored ps))))) = initialState k
     /\ state m = state fresh
     /\ sessionStorage m = sessionStorage fresh
     /\ trace m = Console LLog MsgNewKeyword :: trace fresh)
  /\ (given k = false -> given (keyword ps) = false ->
     sessionStorage m = None
     /\ existsb isError (trace m) = true
     /\ navigations (trace m) = 0
     /\ existsb isSetItem (trace m) = false).
Proof.
  intros Hmis m. subst m. split; [| split].
  - intros Hps Hk. unfold startFullGoogleSearchAutomation.
    destruct (load_restored k ps Hps Hk) as (msg & ->).
    rewrite dispatch_mismatch by exact Hmis.
    unfold recover. simpl. rewrite Hps. simpl.
    repeat split. now eexists [_; _; _; _].
  - intros Hk Hne fresh. subst fresh. unfold startFullGoogleSearchAutomation.
    rewrite (load_reset k ps Hk Hne), (load_fresh k Hk). simpl snd.
    destruct (dispatch_initial w k (Some (Stored ps)) [Console LLog MsgNewKeyword])
      as (Hs & Hst & Hl & _).
    repeat split; try assumption.
    unfold trace. rewrite Hl, rev_app_distr. reflexivity.
  - intros Hk Hps.
    unfold startFullGoogleSearchAutomation, loadState; simpl.
    rewrite Hk; simpl. rewrite Hps; simpl. rewrite Hk; simpl.
    repeat split.
Qed.

(* ================================================================== *)
(** ** The results-page phase *)
(* ================================================================== *)

Section ResultsPhase.

Variable w : Window.

(** The merge touches [allResults] only and logs one line. *)
Lemma mergePage_shape data m :
  exists x,
    log (mergePage data m) = x :: log m
    /\ isNavigation x = false /\ isScrape x = false /\ isSetItem x = false
    /\ currentPageNum (state (mergePage data m)) = currentPageNum (state m)
    /\ maxPages (state (mergePage data m)) = maxPages (state m)
    /\ currentPhase (state (mergePage data m)) = currentPhase (state m)
    /\ keyword (state (mergePage data m)) = keyword (state m)
    /\ sessionStorage (mergePage data m) = sessionStorage m
    /\ uncaught (mergePage data m) = uncaught m.
Proof.
  destruct data as [|r data]; unfold mergePage, andThen; simpl.
  - exists (Console LLog MsgNoNewResults). repeat split.
  - eexists (ConsoleTable _). repeat split.
Qed.

Lemma paginate_limit m :
  maxPages (state m) <= currentPageNum (state m) ->
  paginate w m = finish MsgMaxPagesReached m.
Proof.
  intros H. unfold paginate.
  destruct (Nat.leb_spec (maxPages (state m)) (currentPageNum (state m))); [reflexivity | lia].
Qed.

Lemma paginate_no_next m :
  currentPageNum (state m) < maxPages (state m) ->
  noNextPage (document w) = true ->
  paginate w m = finish MsgNoNextPage m.
Proof.
  intros H Hn. unfold paginate, noNextPage in *.
  destruct (Nat.leb_spec (maxPages (state m)) (currentPageNum (state m))); [lia |].
  destruct (q_nextPageButton (document w)) as [btn |]; [| reflexivity].
  destruct (truthy (href btn)); [discriminate | reflexivity].
Qed.

Lemma paginate_next m :
  currentPageNum (state m) < maxPages (state m) ->
  noNextPage (document w) = false ->
  exists nextPageButton,
    paginate w m
    = emit (Click (AnchorControl nextPageButton))
        (saveState (setState nextPage (console LLog MsgNextPage m))).
Proof.
  intros H Hn. unfold paginate, noNextPage in *.
  destruct (Nat.leb_spec (maxPages (state m)) (currentPageNum (state m))); [lia |].
  destruct (q_nextPageButton (document w)) as [btn |]; [| discriminate].
  destruct (truthy (href btn)); [| discriminate].
  now exists btn.
Qed.

(** The phase as a whole, once the extraction is known to return. *)
Lemma results_steps m :
  processSearchResultsPage w m
  = paginate w
      (mergePage (flat_map (recordsOf w) (resultElements (document w)))
         (console LLog MsgPageCount (console LLog MsgOnResults m))).
Proof. unfold processSearchResultsPage. now rewrite extract_total. Qed.

(** The phase ends the workflow: page limit reached, or no next page. *)
Lemma results_finish m :
  maxPages (state m) <= currentPageNum (state m) \/ noNextPage (document w) = true ->
  exists why x st1,
    processSearchResultsPage w m
    = {| state := withPhase FINISHED st1;
         sessionStorage := None;
         log := RemoveItem :: ConsoleTable (allResults st1)
                :: Console LLog MsgFinalResults
                :: SetItem (withPhase FINISHED st1)
                :: Console LLog why :: x
                :: Console LLog MsgPageCount :: Console LLog MsgOnResults :: log m;
         uncaught := uncaught m |}
    /\ isNavigation x = false /\ isScrape x = false
    /\ (why = MsgMaxPagesReached \/ why = MsgNoNextPage)
    /\ (currentPageNum (state m) < maxPages (state m) -> why = MsgNoNextPage).
Proof.
  intros Hend. rewrite results_steps.
  set (data := flat_map _ _).
  set (m0 := console LLog MsgPageCount (console LLog MsgOnResults m)).
  destruct (mergePage_shape data m0)
    as (x & Hlog & Hx1 & Hx2 & _ & Hp & Hm & _ & _ & _ & Hu).
  simpl in Hlog, Hp, Hm, Hu.
  generalize dependent (mergePage data m0). intros m1 Hlog Hp Hm Hu.
  destruct (Nat.le_gt_cases (maxPages (state m)) (currentPageNum (state m))) as [Hle | Hgt].
  - exists MsgMaxPagesReached, x, (state m1).
    rewrite paginate_limit by (rewrite Hp, Hm; exact Hle).
    unfold finish, displayAndClearFinalResults, andThen, removeItem, emit, console,
      saveState, setItem, setState. simpl.
    rewrite Hlog, Hu. repeat split; auto. intros; lia.
  - destruct Hend as [Hle | Hnone]; [lia |].
    exists MsgNoNextPage, x, (state m1).
    rewrite paginate_no_next by (rewrite ?Hp, ?Hm; assumption).
    unfold finish, displayAndClearFinalResults, andThen, removeItem, emit, console,
      saveState, setItem, setState. simpl.
    rewrite Hlog, Hu. repeat split; auto.
Qed.

(** The phase goes on to the next page. *)
Lemma results_continue m :
  currentPageNum (state m) < maxPages (state m) ->
  noNextPage (document w) = false ->
  exists nextPageButton x st1,
    processSearchResultsPage w m
    = {| state := nextPage st1;
         sessionStorage := Some (Stored (nextPage st1));
         log := Click (AnchorControl nextPageButton) :: SetItem (nextPage st1)
                :: Console LLog MsgNextPage :: x
                :: Console LLog MsgPageCount :: Console LLog MsgOnResults :: log m;
         uncaught := uncaught m |}
    /\ isNavigation x = false /\ isScrape x = false
    /\ currentPageNum st1 = currentPageNum (state m)
    /\ maxPages st1 = maxPages (state m)
    /\ currentPhase st1 = currentPhase (state m)
    /\ keyword st1 = keyword (state m).
Proof.
  intros Hlt Hnext. rewrite results_steps.
  set (data := flat_map _ _).
  set (m0 := console LLog MsgPageCount (console LLog MsgOnResults m)).
  destruct (mergePage_shape data m0)
    as (x & Hlog & Hx1 & Hx2 & _ & Hp & Hm & Hph & Hk & _ & Hu).
  simpl in Hlog, Hp, Hm, Hph, Hk, Hu.
  generalize dependent (mergePage data m0). intros m1 Hlog Hp Hm Hph Hk Hu.
  destruct (paginate_next m1) as (btn & ->);
    [rewrite Hp, Hm; exact Hlt | exact Hnext |].
  exists btn, x, (state m1).
  unfold emit, console, saveState, setItem, setState. simpl.
  rewrite Hlog, Hu. repeat split; auto.
Qed.

End ResultsPhase.

(** C5 (amended).  A missing control never raises an exception and is
    logged.  On the home page, when the query input or the search
    button is missing, an error is logged, the store is cleared, the
    state (and so [currentPhase]) is left as it was and nothing is
    clicked.  On a results page below the page limit, when the
    next-page control is missing, this is logged and taken as the end
    of the results: [currentPhase] becomes FINISHED, the results are
    reported, the store is cleared and nothing is clicked. *)
Theorem missing_control (w : Window) (m : Machine) :
  (q_searchInput (document w) = false \/ q_searchButton (document w) = None ->
     let m' := processGoogleHomePage w m in
     state m' = state m
     /\ uncaught m' = uncaught m
     /\ sessionStorage m' = None
     /\ trace m' = trace m ++ [Console LLog MsgOnHome;
                               Console LError ErrNoSearchControls; RemoveItem])
  /\ (noNextPage (document w) = true ->
      currentPageNum (state m) < maxPages (state m) ->
      let m' := processSearchResultsPage w m in
      currentPhase (state m') = FINISHED
      /\ uncaught m' = uncaught m
      /\ sessionStorage m' = None
      /\ exists x,
           isNavigation x = false
           /\ trace m' = trace m ++ [Console LLog MsgOnResults; Console LLog MsgPageCount; x;
                                     Console LLog MsgNoNextPage; SetItem (state m');
                                     Console LLog MsgFinalResults;
                                     ConsoleTable (allResults (state m')); RemoveItem]).
Proof.
  split.
  - intros Hmiss m'. subst m'. unfold processGoogleHomePage, andThen, trace.
    destruct (q_searchInput (document w)) eqn:Ei;
      [destruct (q_searchButton (document w)) eqn:Eb |];
      try (destruct Hmiss; discriminate); simpl;
      rewrite <- !app_assoc; repeat split.
  - intros Hnone Hlt m'. subst m'.
    destruct (results_finish w m (or_intror Hnone))
      as (why & x & st1 & -> & Hx & _ & _ & Hwhy).
    rewrite (Hwhy Hlt). simpl. repeat split.
    exists x. split; [assumption |].
    unfold trace. simpl. rewrite <- !app_assoc. reflexivity.
Qed.

(* ================================================================== *)
(** ** Page after page *)
(* ================================================================== *)

Section Pagination.

Lemma scrapes_app t1 t2 : scrapes (t1 ++ t2) = scrapes t1 + scrapes t2.
Proof. unfold scrapes. now rewrite filter_app, length_app. Qed.

(** With nothing stored every page load is idle. *)
Lemma pageLoads_idle ws :
  scrapes (fst (pageLoads ws None)) = 0 /\ snd (pageLoads ws None) = None.
Proof.
  induction ws as [|w ws [IH1 IH2]]; simpl; [auto |].
  destruct (pageLoads ws None) as [evs s]. simpl in *. auto.
Qed.

Lemma load_same st :
  given (keyword st) = true ->
  loadState (keyword st) (start (keyword st) (Some (Stored st)))
  = (true, {| state := st; sessionStorage := Some (Stored st);
              log := [Console LLog MsgRestored]; uncaught := None |}).
Proof.
  intros Hk. unfold loadState; simpl.
  rewrite Hk, keyword_eqb_refl. simpl. now rewrite Hk.
Qed.

(** One page load in the SCRAPING_RESULTS phase on a results page:
    the phase runs once; either the workflow finishes and the store
    is cleared, or the page number goes up by one, below the limit. *)
Lemma load_scraping w st :
  currentPhase st = SCRAPING_RESULTS ->
  given (keyword st) = true ->
  onResultsPage w = true ->
  scrapes (fst (onPageLoad w (Some (Stored st)))) = 1
  /\ ((snd (onPageLoad w (Some (Stored st))) = None
       /\ exists fin, currentPhase fin = FINISHED
                      /\ In (SetItem fin) (fst (onPageLoad w (Some (Stored st)))))
      \/ (currentPageNum st < maxPages st
          /\ exists st', snd (onPageLoad w (Some (Stored st))) = Some (Stored st')
               /\ currentPhase st' = SCRAPING_RESULTS
               /\ given (keyword st') = true
               /\ maxPages st' = maxPages st
               /\ currentPageNum st' = S (currentPageNum st))).
Proof.
  intros Hph Hk Hres. unfold onPageLoad, startFullGoogleSearchAutomation.
  rewrite Hk, Hph, (load_same st Hk). simpl andb. cbv iota.
  unfold dispatch. simpl state. rewrite Hph.
  unfold onResultsPage in Hres. rewrite Hres.
  set (m := console LLog MsgPhase _).
  assert (Hm : state m = st) by reflexivity.
  destruct (Nat.le_gt_cases (maxPages st) (currentPageNum st)) as [Hle | Hgt];
    [| destruct (noNextPage (document w)) eqn:Hnext].
  - destruct (results_finish w m) as (why & x & st1 & -> & _ & Hx & [-> | ->] & _);
      [left; now rewrite Hm | |];
      (split; [unfold trace, scrapes; simpl; rewrite ?filter_app; simpl;
               rewrite Hx; reflexivity |]);
      left; (split; [reflexivity |]); exists (withPhase FINISHED st1);
      (split; [reflexivity |]); right; unfold trace; simpl;
      rewrite ?in_app_iff; simpl; tauto.
  - destruct (results_finish w m) as (why & x & st1 & -> & _ & Hx & [-> | ->] & _);
      [now right | |];
      (split; [unfold trace, scrapes; simpl; rewrite ?filter_app; simpl;
               rewrite Hx; reflexivity |]);
      left; (split; [reflexivity |]); exists (withPhase FINISHED st1);
      (split; [reflexivity |]); right; unfold trace; simpl;
      rewrite ?in_app_iff; simpl; tauto.
  - destruct (results_continue w m) as (btn & x & st1 & -> & _ & Hx & Hp & Hmx & Hph1 & Hk1);
      [now rewrite Hm | assumption |].
    rewrite Hm in *.
    split; [unfold trace, scrapes; simpl; rewrite ?filter_app; simpl;
            rewrite Hx; reflexivity |].
    right. split; [assumption |]. exists (nextPage st1). simpl.
    rewrite Hph1, Hk1, Hmx, Hp. auto.
Qed.

(** Successive page loads on results pages, from a state in the
    SCRAPING_RESULTS phase. *)
Lemma scraping_bound ws :
  forall st,
    currentPhase st = SCRAPING_RESULTS ->
    given (keyword st) = true ->
    Forall (fun w => onResultsPage w = true) ws ->
    scrapes (fst (pageLoads ws (Some (Stored st))))
      <= (maxPages st - currentPageNum st) + 1
    /\ ((maxPages st - currentPageNum st) + 1 <= length ws ->
        snd (pageLoads ws (Some (Stored st))) = None
        /\ exists fin, currentPhase fin = FINISHED
             /\ In (SetItem fin) (fst (pageLoads ws (Some (Stored st))))).
Proof.
  induction ws as [|w ws IH]; intros st Hph Hk Hall.
  - unfold scrapes. simpl. split; [lia | intros; lia].
  - inversion Hall as [|? ? Hw Hws]; subst.
    destruct (load_scraping w st Hph Hk Hw) as (Hone & Hnext).
    cbn [pageLoads].
    destruct (onPageLoad w (Some (Stored st))) as [evs storage'].
    cbn [fst snd] in Hone, Hnext.
    destruct Hnext as [(-> & fin & Hfin & Hin) | (Hlt & st' & -> & Hph' & Hk' & Hmx & Hp)].
    + destruct (pageLoads_idle ws) as (H0 & HN).
      destruct (pageLoads ws None) as [evs' storage'']. cbn [fst snd] in *.
      rewrite scrapes_app, Hone, H0. split; [lia |].
      intros _. split; [assumption |].
      exists fin. split; [assumption |]. apply in_app_iff. now left.
    + destruct (IH st' Hph' Hk' Hws) as (Hb & Hend).
      destruct (pageLoads ws (Some (Stored st'))) as [evs' storage''].
      cbn [fst snd] in *.
      rewrite scrapes_app, Hone. rewrite Hmx, Hp in Hb, Hend. split; [lia |].
      intros Hlen. simpl in Hlen.
      destruct Hend as (HN & fin & Hfin & Hin); [lia |].
      split; [assumption |].
      exists fin. split; [assumption |]. apply in_app_iff. now right.
Qed.

End Pagination.

(** C3 (amended).  A workflow with page limit [maxPages >= 1] enters
    the SCRAPING_RESULTS phase on page 1.  As long as every page loaded
    from then on is a results page (so that no recovery restart sets
    the page number back to 1), the phase is executed at most
    [maxPages] times; once [maxPages] pages have been loaded the state
    has been written with phase FINISHED and the store is cleared.  The
    execution on the page whose number equals [maxPages] always ends in
    FINISHED, whether or not the page has a next-page control. *)
Theorem bounded_scraping (ws : list Window) (st : WorkflowState) :
  (1 <= maxPages st ->
   currentPageNum st = 1 ->
   currentPhase st = SCRAPING_RESULTS ->
   given (keyword st) = true ->
   Forall (fun w => onResultsPage w = true) ws ->
   scrapes (fst (pageLoads ws (Some (Stored st)))) <= maxPages st
   /\ (maxPages st <= length ws ->
       snd (pageLoads ws (Some (Stored st))) = None
       /\ exists fin, currentPhase fin = FINISHED
            /\ In (SetItem fin) (fst (pageLoads ws (Some (Stored st))))))
  /\ (forall w m, currentPageNum (state m) = maxPages (state m) ->
        currentPhase (state (processSearchResultsPage w m)) = FINISHED).
Proof.
  split.
  - intros Hmax Hp Hph Hk Hall.
    destruct (scraping_bound ws st Hph Hk Hall) as (Hb & Hend).
    rewrite Hp in Hb, Hend.
    split; [lia |]. intros Hlen. apply Hend. lia.
  - intros w m Heq.
    destruct (results_finish w m) as (why & x & st1 & -> & _); [left; lia |].
    reflexivity.
Qed.

(* ================================================================== *)
(** ** The properties on the sample pages *)
(* ================================================================== *)

Example extract_pageA :
  extractCurrentPageGoogleResults Sample.pageA
  = inr [ {| title := "First result"; url := "https://a.org/";
             displayUrl := "N/A"; summary := "A short description of the page." |};
          {| title := "First result"; url := "https://a.org/";
             displayUrl := "N/A"; summary := "A short description of the page." |};
          {| title := "Example target"; url := "https://example.com/target";
             displayUrl := "N/A"; summary := "A short description of the page." |} ].
Proof. reflexivity. Qed.

Example afterHome_state :
  Sample.afterHome
  = Some (Stored
      {| keyword := Some "rocq"; currentPageNum := 1; allResults := [];
         currentPhase := SCRAPING_RESULTS; maxPages := MAX_PAGES_TO_SCRAPE |}).
Proof. reflexivity. Qed.

Example afterPageA_state :
  Sample.afterPageA
  = Some (Stored
      {| keyword := Some "rocq"; currentPageNum := 2;
         allResults :=
           [ {| title := "First result"; url := "https://a.org/";
                displayUrl := "N/A"; summary := "A short description of the page." |};
             {| title := "Example target"; url := "https://example.com/target";
                displayUrl := "N/A"; summary := "A short description of the page." |} ];
         currentPhase := SCRAPING_RESULTS; maxPages := 10 |}).
Proof. reflexivity. Qed.

Example two_pages_of_two :
  let run := pageLoads [Sample.pageA; Sample.pageB; Sample.pageB]
               (Some (Stored (Sample.scraping 1 2 []))) in
  scrapes (fst run) = 2 /\ snd run = None.
Proof. split; reflexivity. Qed.

Lemma allResults_unique_witness :
  reachable Sample.afterPageA
  /\ (forall st, Sample.afterPageA = Some (Stored st) ->
        NoDup (map entryKey (allResults st)))
  /\ (forall w k,
        NoDup (map entryKey
          (allResults (state (startFullGoogleSearchAutomation w k Sample.afterPageA))))).
Proof.
  assert (H : reachable Sample.afterPageA).
  { unfold Sample.afterPageA, Sample.afterHome.
    apply reach_load, reach_call, reach_fresh. }
  split; [exact H | exact (allResults_unique Sample.afterPageA H)].
Defined.

Example restart_run_trace :
  let st := withPhase SCRAPING_RESULTS (initialState (Some "rocq")) in
  let run := pageLoads restartRun (Some (Stored st)) in
  maxPages st = 10
  /\ scrapes (fst run) = 11
  /\ existsb isFinishedWrite (fst run) = false
  /\ snd run = Some (Stored st).
Proof. vm_compute. repeat split. Qed.

(** C3 as stated fails: when a page that is no results page comes up
    during the SCRAPING_RESULTS phase, the recovery sets the page
    number back to 1, and the executions of the phase are no longer
    bounded by [maxPages].  Eleven rounds of results page, check page
    and home page execute the phase 11 times under the limit 10,
    without ever reaching FINISHED. *)
Lemma restart_exceeds_page_limit :
  ~ (forall ws st,
       1 <= maxPages st ->
       currentPageNum st = 1 ->
       currentPhase st = SCRAPING_RESULTS ->
       given (keyword st) = true ->
       existsb isFinishedWrite (fst (pageLoads ws (Some (Stored st)))) = false ->
       scrapes (fst (pageLoads ws (Some (Stored st)))) <= maxPages st).
Proof.
  intros H.
  specialize (H restartRun (withPhase SCRAPING_RESULTS (initialState (Some "rocq")))).
  assert (Hmax : 1 <= 10) by lia.
  assert (Hnone : existsb isFinishedWrite
                    (fst (pageLoads restartRun
                            (Some (Stored (withPhase SCRAPING_RESULTS
                                             (initialState (Some "rocq"))))))) = false)
    by (vm_compute; reflexivity).
  specialize (H Hmax eq_refl eq_refl eq_refl Hnone).
  vm_compute in H. lia.
Qed.

Lemma bounded_scraping_witness :
  let ws := [Sample.pageA; Sample.pageB; Sample.pageB] in
  let st := Sample.scraping 1 2 [] in
  1 <= maxPages st
  /\ currentPageNum st = 1
  /\ currentPhase st = SCRAPING_RESULTS
  /\ given (keyword st) = true
  /\ Forall (fun w => onResultsPage w = true) ws
  /\ scrapes (fst (pageLoads ws (Some (Stored st)))) <= maxPages st
  /\ (maxPages st <= length ws ->
      snd (pageLoads ws (Some (Stored st))) = None
      /\ exists fin, currentPhase fin = FINISHED
           /\ In (SetItem fin) (fst (pageLoads ws (Some (Stored st)))))
  /\ (forall w m, currentPageNum (state m) = maxPages (state m) ->
        currentPhase (state (processSearchResultsPage w m)) = FINISHED).
Proof.
  intros ws st.
  assert (H1 : 1 <= maxPages st) by (simpl; lia).
  assert (H2 : currentPageNum st = 1) by reflexivity.
  assert (H3 : currentPhase st = SCRAPING_RESULTS) by reflexivity.
  assert (H4 : given (keyword st) = true) by reflexivity.
  assert (H5 : Forall (fun w => onResultsPage w = true) ws)
    by (repeat constructor).
  repeat (split; [assumption |]).
  destruct (bounded_scraping ws st) as [Hrun Hlast].
  destruct (Hrun H1 H2 H3 H4 H5) as [Hbound Hend].
  split; [exact Hbound | split; [exact Hend | exact Hlast]].
Defined.

(** C5 as stated fails: on a results page without next-page control the
    phase does advance, to FINISHED. *)
Lemma missing_next_page_advances_phase :
  ~ (forall w m,
       (q_searchInput (document w) = false \/ q_searchButton (document w) = None ->
          currentPhase (state (processGoogleHomePage w m)) = currentPhase (state m))
       /\ (noNextPage (document w) = true ->
           currentPhase (state (processSearchResultsPage w m)) = currentPhase (state m))).
Proof.
  intros H.
  destruct (H (Sample.resultsPage [] None) (Sample.running (Sample.scraping 1 10 [])))
    as [_ Hnext].
  specialize (Hnext eq_refl). vm_compute in Hnext. discriminate Hnext.
Qed.

Lemma missing_control_witness :
  let w := Sample.resultsPage [] None in
  let m := Sample.running (Sample.scraping 1 10 []) in
  (q_searchInput (document w) = false \/ q_searchButton (document w) = None)
  /\ noNextPage (document w) = true
  /\ currentPageNum (state m) < maxPages (state m)
  /\ state (processGoogleHomePage w m) = state m
  /\ sessionStorage (processGoogleHomePage w m) = None
  /\ currentPhase (state (processSearchResultsPage w m)) = FINISHED
  /\ sessionStorage (processSearchResultsPage w m) = None.
Proof.
  intros w m.
  assert (H1 : q_searchInput (document w) = false \/ q_searchButton (document w) = None)
    by (right; reflexivity).
  assert (H2 : noNextPage (document w) = true) by reflexivity.
  assert (H3 : currentPageNum (state m) < maxPages (state m)) by (simpl; lia).
  repeat (split; [assumption |]).
  destruct (missing_control w m) as [Hhome Hnext].
  destruct (Hhome H1) as (Ha & _ & Hb & _).
  destruct (Hnext H2 H3) as (Hc & _ & Hd & _).
  repeat split; assumption.
Defined.

Lemma phase_mismatch_recovery_witness :
  let w := Sample.elsewhere in
  let ps := Sample.scraping 3 10 [] in
  let m := startFullGoogleSearchAutomation w None (Some (Stored ps)) in
  mismatch w (currentPhase ps) = true
  /\ given (keyword ps) = true
  /\ currentPhase (state m) = INITIATE_SEARCH
  /\ currentPageNum (state m) = 1
  /\ allResults (state m) = []
  /\ keyword (state m) = Some "rocq"
  /\ sessionStorage m = Some (Stored (state m)).
Proof.
  intros w ps m.
  assert (H1 : mismatch w (currentPhase ps) = true) by reflexivity.
  assert (H2 : given (keyword ps) = true) by reflexivity.
  repeat (split; [assumption |]).
  destruct (phase_mismatch_recovery w None ps H1) as [Hkept _].
  destruct (Hkept H2 (or_introl eq_refl)) as (Ha & Hb & Hc & Hd & He & _).
  repeat split; assumption.
Defined.

Example raw_wrapper_unwrapped :
  recordsOf Sample.pageA (Sample.organic Sample.wrapped "Example target")
  = [ {| title := "Example target"; url := "https://example.com/target";
         displayUrl := "N/A"; summary := "A short description of the page." |} ].
Proof. reflexivity. Qed.



Lemma missing_keyword_aborts_witness :
  let m := startFullGoogleSearchAutomation Sample.elsewhere None (Some Corrupt) in
  given None = false
  /\ existsb isError (trace m) = true
  /\ navigations (trace m) = 0
  /\ existsb isSetItem (trace m) = false
  /\ state m = initialState None
  /\ uncaught m = None
  /\ (sessionStorage m = Some Corrupt \/ sessionStorage m = None).
Proof.
  intros m. split; [reflexivity |].
  exact (missing_keyword_aborts Sample.elsewhere None (Some Corrupt) eq_refl
           (or_intror (or_introl eq_refl))).
Defined.

(** C9 as stated fails: a text of exactly 5 characters is not taken as
    title. *)
Lemma title_of_five_characters_rejected :
  ~ (forall c generalLink,
       l_titleLinkElement (resolveTitleLink c) = false ->
       l_title (resolveTitleLink c) = NA ->
       q_generalLink c = Some generalLink ->
       let potentialTitle :=
         JsString.firstLine (JsString.trim (textContent generalLink)) in
       5 <= String.length potentialTitle <= 150 ->
       l_title (generalLinkFallback c (resolveTitleLink c)) = potentialTitle).
Proof.
  intros H.
  specialize (H (Sample.linkOnly "https://a.org/" "Hello")
                (Sample.anchor "https://a.org/" "Hello") eq_refl eq_refl eq_refl).
  simpl in H. assert (Hlen : 5 <= 5 <= 150) by lia.
  specialize (H Hlen). discriminate H.
Qed.

Lemma general_link_title_witness :
  let c := Sample.linkOnly "https://a.org/" "Hello!" in
  let g := Sample.anchor "https://a.org/" "Hello!" in
  l_titleLinkElement (resolveTitleLink c) = false
  /\ l_title (resolveTitleLink c) = NA
  /\ q_generalLink c = Some g
  /\ 5 < String.length "Hello!" < 150
  /\ l_title (generalLinkFallback c (resolveTitleLink c)) = "Hello!"
  /\ l_url (generalLinkFallback c (resolveTitleLink c)) = VString "https://a.org/".
Proof.
  intros c g.
  assert (Hlen : 5 < String.length "Hello!" < 150) by (simpl; lia).
  do 3 (split; [reflexivity |]). split; [exact Hlen |].
  destruct (general_link_title c g eq_refl eq_refl eq_refl) as (Hin & _ & Hurl).
  split; [exact (Hin Hlen) | exact Hurl].
Defined.

Lemma extraction_isolates_failures_witness :
  let w := Sample.pageA in
  let before := [Sample.organic "https://a.org/" "First result"] in
  let after := [Sample.organic Sample.wrapped "Example target"] in
  throws w Sample.broken
  /\ (exists results, extractCurrentPageGoogleResults w = inr results)
  /\ exists rb ra,
       extractFrom w before = inr rb
       /\ extractFrom w after = inr ra
       /\ extractFrom w (before ++ Sample.broken :: after) = inr (rb ++ ra).
Proof.
  intros w before after.
  assert (H : throws w Sample.broken) by (exists TypeError; reflexivity).
  split; [exact H |].
  destruct (extraction_isolates_failures w) as [Htotal Hdrop].
  split; [exact Htotal | exact (Hdrop before Sample.broken after H)].
Defined.

(* ================================================================== *)
(** ** More on the merge *)
(* ================================================================== *)

Section MergeMore.

Lemma mergeResults_keeps_keys currentPageData all k :
  In k (map entryKey all) -> In k (map entryKey (mergeResults all currentPageData)).
Proof.
  intros Hk. destruct (mergeResults_appends currentPageData all) as (added & -> & _).
  rewrite map_app, in_app_iff. now left.
Qed.

Lemma mergeResults_covers_keys currentPageData :
  forall all r, In r currentPageData ->
    In (entryKey r) (map entryKey (mergeResults all currentPageData)).
Proof.
  induction currentPageData as [|newItem rest IH]; intros all r Hin;
    [destruct Hin | destruct Hin as [<- | Hr]].
  - unfold mergeResults. simpl. fold (mergeResults
      (if existsb (sameEntry newItem) all then all else all ++ [newItem]) rest).
    apply mergeResults_keeps_keys.
    destruct (existsb (sameEntry newItem) all) eqn:Hseen.
    + now apply seen_iff.
    + rewrite map_app, in_app_iff. right. now left.
  - unfold mergeResults. simpl. now apply IH.
Qed.

Lemma mergeResults_origin currentPageData :
  forall all e, In e (mergeResults all currentPageData) ->
    In e all \/ In e currentPageData.
Proof.
  unfold mergeResults.
  induction currentPageData as [|newItem rest IH]; intros all e He; simpl in *.
  - now left.
  - apply IH in He as [He | He]; [| right; now right].
    destruct (existsb (sameEntry newItem) all); [now left |].
    apply in_app_iff in He as [He | [<- | []]]; [now left | right; now left].
Qed.

(** Merging a page whose entries are all present changes nothing. *)
Lemma mergeResults_nothing_new currentPageData :
  forall all,
    (forall r, In r currentPageData -> In (entryKey r) (map entryKey all)) ->
    mergeResults all currentPageData = all.
Proof.
  unfold mergeResults.
  induction currentPageData as [|newItem rest IH]; intros all Hall; simpl.
  - reflexivity.
  - rewrite (proj2 (seen_iff newItem all)) by (apply Hall; now left).
    apply IH. intros r Hr. apply Hall. now right.
Qed.

End MergeMore.

(** X1.  Merging the same page a second time changes nothing. *)
Theorem merge_idempotent (all currentPageData : list ResultRecord) :
  mergeResults (mergeResults all currentPageData) currentPageData
  = mergeResults all currentPageData.
Proof.
  apply mergeResults_nothing_new. intros r Hr.
  now apply mergeResults_covers_keys.
Qed.

(** X2.  The merge loses nothing and invents nothing: every record of
    the page has an entry with its title and url in the result, and
    every entry of the result is an old entry or a record of the page. *)
Theorem merge_complete (all currentPageData : list ResultRecord) :
  (forall r, In r currentPageData ->
     exists e, In e (mergeResults all currentPageData) /\ sameKey e r)
  /\ (forall e, In e (mergeResults all currentPageData) ->
        In e all \/ In e currentPageData).
Proof.
  split.
  - intros r Hr.
    pose proof (mergeResults_covers_keys currentPageData all r Hr) as Hk.
    apply in_map_iff in Hk as (e & Hkey & He).
    exists e. split; [assumption |]. unfold entryKey in Hkey.
    inversion Hkey. now split.
  - apply mergeResults_origin.
Qed.

(* ================================================================== *)
(** ** More on the extraction *)
(* ================================================================== *)

Section ExtractionMore.

Variable w : Window.

Lemma stateless_nil {A} (m : Eff A) : stateless m -> snd (m []) = [].
Proof. intros H. specialize (H []). destruct (m []) as [x rs]. now inversion H. Qed.

(** A candidate contributes nothing, or the one record built from the
    resolved title, the unwrapped link, the citation and the summary,
    and that record passed the test of line 108. *)
Lemma recordsOf_cases c :
  recordsOf w c = []
  \/ exists v parts,
       recordsOf w c
       = [{| title := l_title (resolved c); url := v;
             displayUrl := resolveDisplayUrl c;
             summary := resolveSummary c (l_title (resolved c)) parts |}]
       /\ fst (unwrapRedirect w (l_url (resolved c)) []) = inr (VString v)
       /\ fst (collectSummaryParts c v []) = inr parts
       /\ JsString.nonEmpty (l_title (resolved c)) = true
       /\ (l_title (resolved c) =? NA) = false
       /\ JsString.nonEmpty v = true
       /\ (v =? NA) = false
       /\ JsString.startsWith "javascript:void" v = false.
Proof.
  remember (recordsOf w c) as R eqn:HR.
  unfold recordsOf, extractOne, tryCatch, processCandidate in HR.
  fold (resolved c) in HR. unfold bind in HR.
  pose proof (stateless_nil _ (stateless_unwrapRedirect w (l_url (resolved c)))) as Hu.
  destruct (unwrapRedirect w (l_url (resolved c)) []) as [[e | u] rs0];
    simpl in Hu; subst rs0; [now left |].
  pose proof (stateless_nil _ (stateless_collectSummaryParts c (toString u))) as Hc.
  destruct (collectSummaryParts c (toString u) []) as [[e | parts] rs1] eqn:Ec;
    simpl in Hc; subst rs1; [now left |].
  unfold pushIfValid in HR.
  destruct (JsString.nonEmpty (l_title (resolved c))) eqn:Ht; [| now left].
  destruct (l_title (resolved c) =? NA) eqn:Hna; [now left |].
  destruct u as [| v |]; simpl in HR; try (now left).
  destruct (JsString.nonEmpty v) eqn:Hv; [| now left].
  destruct (v =? NA) eqn:Hvna; [now left |].
  destruct (JsString.startsWith "javascript:void" v) eqn:Hjs; [now left |].
  simpl in HR, Ec. right. exists v, parts. rewrite Ec. repeat split; assumption.
Qed.

Lemma nonEmpty_neq s : JsString.nonEmpty s = true -> s <> "".
Proof. intros H ->. discriminate. Qed.



(** The summary is never empty. *)
Lemma resolveSummary_nonEmpty c t parts : resolveSummary c t parts <> "".
Proof.
  unfold resolveSummary.
  set (summary0 := match parts with [] => _ | _ :: _ => _ end).
  destruct (JsString.nonEmpty (JsString.trim (JsString.stripEllipsis summary0))) eqn:E;
    simpl.
  - destruct (_ && _); [discriminate |].
    intros H0. rewrite H0 in E. discriminate.
  - discriminate.
Qed.



End ExtractionMore.

(** X3.  Every record the extraction returns passed the test of line
    108 and has a summary: its title is neither empty nor "N/A", its
    url is neither empty nor "N/A" and does not start with
    "javascript:void", and its summary is not empty. *)
Theorem extracted_records_valid (w : Window) :
  exists results,
    extractCurrentPageGoogleResults w = inr results
    /\ Forall validRecord results.
Proof.
  eexists. split; [apply extract_total |].
  apply Forall_forall. intros r Hr. apply in_flat_map in Hr as (c & _ & Hr).
  destruct (recordsOf_cases w c) as [E | (v & parts & E & _ & _ & Ht & Hna & Hv & Hvna & Hjs)];
    rewrite E in Hr; [destruct Hr |].
  destruct Hr as [<- | []]. unfold validRecord. simpl.
  repeat split; try assumption.
  - now apply nonEmpty_neq.
  - now apply String.eqb_neq.
  - now apply nonEmpty_neq.
  - now apply String.eqb_neq.
  - apply resolveSummary_nonEmpty.
Qed.

(** X4.  A candidate yields at most one record, so the extraction never
    returns more records than the page has candidates. *)
Theorem extraction_at_most_one_per_candidate (w : Window) :
  (forall c, length (recordsOf w c) <= 1)
  /\ exists results,
       extractCurrentPageGoogleResults w = inr results
       /\ length results <= length (resultElements (document w)).
Proof.
  assert (H1 : forall c, length (recordsOf w c) <= 1).
  { intros c. destruct (recordsOf_cases w c) as [-> | (v & parts & -> & _)]; simpl; lia. }
  split; [exact H1 |].
  eexists. split; [apply extract_total |].
  induction (resultElements (document w)) as [|c cands IH]; simpl; [lia |].
  rewrite length_app. specialize (H1 c). lia.
Qed.


(** X6.  A candidate whose title element was found but has no usable
    [href] (as when the query returns the [h3] inside an anchor rather
    than the anchor), and which is not a video result, yields no
    record. *)
Theorem title_element_without_href (w : Window) (c : Candidate) (el : Element) :
  q_titleLink c = Some el ->
  truthy (href el) = false ->
  matches_RzdJxc c = false ->
  recordsOf w c = [].
Proof.
  intros Hel Hhref Hvideo.
  assert (Hurl : l_url (resolved c) = href el).
  { unfold resolved, videoFallback, generalLinkFallback, resolveTitleLink.
    rewrite Hel, Hvideo. simpl. now rewrite andb_false_r. }
  destruct (recordsOf_cases w c) as [E | (v & parts & _ & Hu & _ & _ & _ & Hv & _)];
    [exact E |].
  exfalso. rewrite Hurl in Hu.
  destruct (href el) as [| s |]; unfold truthy in Hhref; try discriminate.
  unfold unwrapRedirect, ret in Hu. rewrite Hhref in Hu. simpl in Hu.
  injection Hu as <-. congruence.
Qed.

(* ================================================================== *)
(** ** What an invocation leaves behind *)
(* ================================================================== *)

Section Handing.

Variable w : Window.

Lemma Handed_home m : Handed (processGoogleHomePage w m).
Proof.
  unfold processGoogleHomePage, andThen.
  destruct (q_searchInput (document w)); [destruct (q_searchButton (document w)) |];
    try (left; reflexivity).
  right. simpl. repeat split; [discriminate |]. eauto.
Qed.

Lemma Handed_finish why m : Handed (finish why m).
Proof. left. reflexivity. Qed.

Lemma Handed_paginate m :
  currentPhase (state m) <> FINISHED -> Handed (paginate w m).
Proof.
  intros Hph. unfold paginate.
  destruct (maxPages (state m) <=? currentPageNum (state m))%nat;
    [apply Handed_finish |].
  destruct (q_nextPageButton (document w)) as [btn |]; [| apply Handed_finish].
  destruct (truthy (href btn)); [| apply Handed_finish].
  right. unfold andThen. simpl. repeat split; [assumption |]. eauto.
Qed.

Lemma Handed_results m :
  currentPhase (state m) <> FINISHED -> Handed (processSearchResultsPage w m).
Proof.
  intros Hph. rewrite results_steps. apply Handed_paginate.
  destruct (mergePage_shape (flat_map (recordsOf w) (resultElements (document w)))
              (console LLog MsgPageCount (console LLog MsgOnResults m)))
    as (_ & _ & _ & _ & _ & _ & _ & -> & _).
  exact Hph.
Qed.

Lemma Handed_recover m : Handed (recover m).
Proof.
  unfold recover, andThen. simpl.
  destruct (given (keyword (state m))); [| left; reflexivity].
  right. simpl. repeat split; [discriminate |]. eauto.
Qed.

Lemma Handed_dispatch m : Handed (dispatch w m).
Proof.
  unfold dispatch. simpl state.
  destruct (currentPhase (state m)) eqn:Hph.
  - destruct (negb _ || negb _).
    + right. unfold andThen. simpl. repeat split; [discriminate |]. eauto.
    + unfold andThen. apply Handed_home.
  - destruct (_ && _); [apply Handed_home | apply Handed_recover].
  - destruct (JsString.includes _ _); [| apply Handed_recover].
    apply Handed_results. simpl. rewrite Hph. discriminate.
  - left. reflexivity.
Qed.

Lemma wellFormed_withPhase p st : wellFormed st -> wellFormed (withPhase p st).
Proof. intros H. exact H. Qed.

Lemma wellFormed_home m :
  wellFormed (state m) -> wellFormed (state (processGoogleHomePage w m)).
Proof.
  intros H. unfold processGoogleHomePage, andThen.
  destruct (q_searchInput (document w)); [destruct (q_searchButton (document w)) |];
    exact H.
Qed.

Lemma wellFormed_results m :
  wellFormed (state m) -> wellFormed (state (processSearchResultsPage w m)).
Proof.
  intros (Hk & Hp & Hmx). rewrite results_steps.
  destruct (mergePage_shape (flat_map (recordsOf w) (resultElements (document w)))
              (console LLog MsgPageCount (console LLog MsgOnResults m)))
    as (_ & _ & _ & _ & _ & Hp1 & Hm1 & _ & Hk1 & _).
  simpl in Hp1, Hm1, Hk1.
  generalize dependent (mergePage (flat_map (recordsOf w) (resultElements (document w)))
                          (console LLog MsgPageCount (console LLog MsgOnResults m))).
  intros m1 Hp1 Hm1 Hk1.
  assert (H1 : wellFormed (state m1)).
  { unfold wellFormed. rewrite Hp1, Hm1, Hk1. auto. }
  unfold paginate.
  destruct (Nat.leb_spec (maxPages (state m1)) (currentPageNum (state m1))) as [Hle | Hlt];
    [exact H1 |].
  destruct (q_nextPageButton (document w)) as [btn |]; [| exact H1].
  destruct (truthy (href btn)); [| exact H1].
  destruct H1 as (Ha & Hb & Hc). unfold wellFormed, andThen. simpl.
  repeat split; try assumption; lia.
Qed.

Lemma wellFormed_recover m :
  wellFormed (state m) -> wellFormed (state (recover m)).
Proof.
  intros (Hk & Hp & Hmx). unfold recover, andThen. simpl. rewrite Hk.
  unfold wellFormed. simpl. repeat split; try assumption; lia.
Qed.

Lemma wellFormed_dispatch m :
  wellFormed (state m) -> wellFormed (state (dispatch w m)).
Proof.
  intros H. unfold dispatch. simpl state.
  destruct (currentPhase (state m)).
  - destruct (negb _ || negb _); [exact H |].
    unfold andThen. apply wellFormed_home. exact H.
  - destruct (_ && _); [apply wellFormed_home | apply wellFormed_recover]; exact H.
  - destruct (JsString.includes _ _);
      [apply wellFormed_results | apply wellFormed_recover]; exact H.
  - exact H.
Qed.

(** Restoring the state: either the function returns at once and the
    store is empty, or it goes on with a well-formed state. *)
Lemma load_outcome k storage :
  storage <> Some Corrupt \/ given k = true ->
  (forall st, storage = Some (Stored st) -> wellFormed st) ->
  (fst (loadState k (start k storage)) = false
   /\ sessionStorage (snd (loadState k (start k storage))) = None)
  \/ (fst (loadState k (start k storage)) = true
      /\ wellFormed (state (snd (loadState k (start k storage))))).
Proof.
  intros Hok Hst. unfold loadState.
  destruct storage as [[| ps] |]; simpl sessionStorage; cbv iota.
  - destruct Hok as [Hc | Hk]; [congruence |]. rewrite Hk. simpl.
    right. split; [reflexivity |]. unfold wellFormed. simpl.
    repeat split; try assumption; unfold MAX_PAGES_TO_SCRAPE; lia.
  - specialize (Hst ps eq_refl). destruct Hst as (Hk & Hp & Hmx).
    destruct (given k) eqn:Ek; simpl.
    + destruct (keyword_eqb (keyword ps) k) eqn:Eq; simpl.
      * rewrite Hk. simpl. right. split; [reflexivity |].
        exact (conj Hk (conj Hp Hmx)).
      * rewrite Ek. simpl. right. split; [reflexivity |]. unfold wellFormed. simpl.
        repeat split; try assumption; unfold MAX_PAGES_TO_SCRAPE; lia.
    + rewrite Hk. simpl. rewrite Hk. simpl. right. split; [reflexivity |].
      exact (conj Hk (conj Hp Hmx)).
  - destruct (given k) eqn:Ek; simpl.
    + right. split; [reflexivity |]. unfold wellFormed. simpl.
      repeat split; try assumption; unfold MAX_PAGES_TO_SCRAPE; lia.
    + left. split; reflexivity.
Qed.

End Handing.

Section Reachability.

Lemma run_cases w k storage :
  let m := startFullGoogleSearchAutomation w k storage in
  (fst (loadState k (start k storage)) = false
   /\ m = snd (loadState k (start k storage)))
  \/ (fst (loadState k (start k storage)) = true
      /\ m = dispatch w (snd (loadState k (start k storage)))).
Proof.
  unfold startFullGoogleSearchAutomation.
  destruct (loadState k (start k storage)) as [[|] m0]; simpl; auto.
Qed.

Lemma run_well_formed w k storage :
  storeWellFormed storage ->
  storeWellFormed (sessionStorage (startFullGoogleSearchAutomation w k storage)).
Proof.
  intros [Hnc Hst].
  destruct (load_outcome k storage (or_introl Hnc) (fun st E => proj1 (Hst st E)))
    as [[Hf Hnone] | [Ht Hwf]];
    destruct (run_cases w k storage) as [[Hf' ->] | [Ht' ->]]; try congruence.
  - rewrite Hnone. split; [discriminate | intros st E; discriminate].
  - pose proof (wellFormed_dispatch w _ Hwf) as Hwf'.
    destruct (Handed_dispatch w (snd (loadState k (start k storage))))
      as [-> | (-> & Hph & _)].
    + split; [discriminate | intros st E; discriminate].
    + split; [discriminate |]. intros st E. injection E as <-. now split.
Qed.

Lemma load_well_formed w storage :
  storeWellFormed storage -> storeWellFormed (snd (onPageLoad w storage)).
Proof.
  intros H. pose proof H as [Hnc Hst]. unfold onPageLoad.
  destruct storage as [[| st] |]; simpl; [congruence | | exact H].
  destruct (given (keyword st) && _); simpl.
  - now apply run_well_formed.
  - destruct (phase_eqb _ _); exact H.
Qed.

Lemma reachable_storeWellFormed storage : reachable storage -> storeWellFormed storage.
Proof.
  induction 1 as [| w k s _ IH | w s _ IH].
  - split; [discriminate | intros st E; discriminate].
  - now apply run_well_formed.
  - now apply load_well_formed.
Qed.

Lemma navigations_after_checkpoint e s older :
  isNavigation e = true -> forallb calm older = true ->
  navigations (rev (e :: SetItem s :: older)) = 1.
Proof.
  intros He Hc. unfold navigations. simpl. rewrite !filter_app. simpl. rewrite He.
  rewrite (calm_filter _ (calm_rev _ Hc)). reflexivity.
Qed.

End Reachability.

(** X7.  In every store a session can produce from an empty one the
    payload parses, and the stored state has a non-empty keyword, a
    phase other than FINISHED, the page limit 10 and a page number
    between 1 and 10. *)
Theorem stored_state_well_formed (storage : Storage) :
  reachable storage ->
  storage <> Some Corrupt
  /\ forall st, storage = Some (Stored st) ->
       given (keyword st) = true
       /\ currentPhase st <> FINISHED
       /\ maxPages st = 10
       /\ 1 <= currentPageNum st <= 10.
Proof.
  intros Hr. destruct (reachable_storeWellFormed storage Hr) as [Hnc Hst].
  split; [exact Hnc |]. intros st E.
  destruct (Hst st E) as ((Hk & Hp & Hmx) & Hph).
  unfold MAX_PAGES_TO_SCRAPE in Hmx. rewrite Hmx in Hp. auto.
Qed.

(** X8.  Unless the store holds an unreadable payload and no keyword is
    given, an invocation ends in one of two ways: the store is empty,
    or the store holds the current state, which is not FINISHED, and
    exactly one navigation was attempted. *)
Theorem invocation_clears_or_hands_over
  (w : Window) (k : option string) (storage : Storage) :
  storage <> Some Corrupt \/ given k = true ->
  let m := startFullGoogleSearchAutomation w k storage in
  sessionStorage m = None
  \/ (sessionStorage m = Some (Stored (state m))
      /\ currentPhase (state m) <> FINISHED
      /\ navigations (trace m) = 1).
Proof.
  intros Hok m.
  assert (Hh : Handed m).
  { subst m. destruct (run_cases w k storage) as [[Hf ->] | [Ht ->]];
      [| apply Handed_dispatch].
    left. revert Hf. unfold loadState.
    destruct storage as [[| ps] |]; simpl sessionStorage; cbv iota.
    - destruct Hok as [Hc | Hk]; [congruence |]. rewrite Hk. discriminate.
    - match goal with
      | |- context [if negb (given (keyword (state ?m1))) then _ else _] =>
          destruct (negb (given (keyword (state m1))))
      end; [reflexivity | discriminate].
    - destruct (negb (given k)); [reflexivity | discriminate]. }
  destruct Hh as [Hn | (Hs & Hph & e & older & Hlog & He)]; [now left |].
  right. repeat split; try assumption.
  destruct (Checkpointed_run w k storage) as [Hq | (e0 & older0 & Hlog0 & He0 & Hc0 & _)];
    fold m in Hq || fold m in Hlog0.
  - unfold Quiet in Hq. rewrite Hlog in Hq. simpl in Hq. unfold calm at 1 in Hq.
    rewrite He in Hq. discriminate.
  - unfold trace. rewrite Hlog0. now apply navigations_after_checkpoint.
Qed.

(** X9.  A call with a keyword other than the stored one starts over,
    whatever was stored: apart from one console line, it does exactly
    what the same call does on an empty store. *)
Theorem different_keyword_starts_over
  (w : Window) (k : option string) (ps : WorkflowState) :
  given k = true ->
  k <> keyword ps ->
  let m := startFullGoogleSearchAutomation w k (Some (Stored ps)) in
  let fresh := startFullGoogleSearchAutomation w k None in
  state m = state fresh
  /\ sessionStorage m = sessionStorage fresh
  /\ trace m = Console LLog MsgNewKeyword :: trace fresh.
Proof.
  intros Hk Hne m fresh. subst m fresh. unfold startFullGoogleSearchAutomation.
  rewrite (load_reset k ps Hk Hne), (load_fresh k Hk).
  destruct (dispatch_initial w k (Some (Stored ps)) [Console LLog MsgNewKeyword])
    as (Hs & Hst & Hl & _).
  repeat split; try assumption.
  unfold trace. rewrite Hl, rev_app_distr. reflexivity.
Qed.

(* ================================================================== *)
(** ** First call, scraping step, search button, page loads *)
(* ================================================================== *)

Section Steps.

Lemma mergePage_results data m :
  allResults (state (mergePage data m)) = mergeResults (allResults (state m)) data.
Proof. destruct data; reflexivity. Qed.

Lemma paginate_state w m :
  allResults (state (paginate w m)) = allResults (state m)
  /\ keyword (state (paginate w m)) = keyword (state m)
  /\ maxPages (state (paginate w m)) = maxPages (state m)
  /\ (currentPageNum (state (paginate w m)) = currentPageNum (state m)
      \/ (currentPageNum (state (paginate w m)) = S (currentPageNum (state m))
          /\ currentPageNum (state m) < maxPages (state m))).
Proof.
  assert (Hfin : forall why,
            allResults (state (finish why m)) = allResults (state m)
            /\ keyword (state (finish why m)) = keyword (state m)
            /\ maxPages (state (finish why m)) = maxPages (state m)
            /\ (currentPageNum (state (finish why m)) = currentPageNum (state m)
                \/ (currentPageNum (state (finish why m)) = S (currentPageNum (state m))
                    /\ currentPageNum (state m) < maxPages (state m)))).
  { intros why. repeat split. now left. }
  unfold paginate.
  destruct (Nat.leb_spec (maxPages (state m)) (currentPageNum (state m))) as [Hle | Hlt];
    [apply Hfin |].
  destruct (q_nextPageButton (document w)) as [btn |]; [| apply Hfin].
  destruct (truthy (href btn)); [| apply Hfin].
  repeat split. right. split; [reflexivity | exact Hlt].
Qed.

Lemma isPlainButton_not_lucky b : isPlainButton b = negb (isLuckyButton b).
Proof. unfold isPlainButton, isLuckyButton. now rewrite negb_orb. Qed.

Lemma navigations_app t1 t2 : navigations (t1 ++ t2) = navigations t1 + navigations t2.
Proof. unfold navigations. now rewrite filter_app, length_app. Qed.

End Steps.

(** X10.  The first call with a keyword, nothing being stored.  Away
    from the Google home page it stores the state with phase
    ON_GOOGLE_HOME and sends the browser to https://www.google.com/.
    On the home page with both controls it types the keyword, stores
    the state with phase SCRAPING_RESULTS and clicks the search button.
    On the home page without them it logs an error and clears the
    store. *)
Theorem first_call (w : Window) (k : option string) :
  given k = true ->
  let m := startFullGoogleSearchAutomation w k None in
  (atGoogleRoot w = false ->
     sessionStorage m = Some (Stored (withPhase ON_GOOGLE_HOME (initialState k)))
     /\ trace m = [Console LLog MsgPhase; Console LLog MsgNavigatingHome;
                   SetItem (withPhase ON_GOOGLE_HOME (initialState k));
                   Navigate googleHome])
  /\ (atGoogleRoot w = true ->
      forall searchButton,
        q_searchInput (document w) = true ->
        q_searchButton (document w) = Some searchButton ->
        sessionStorage m = Some (Stored (withPhase SCRAPING_RESULTS (initialState k)))
        /\ exists earlier,
             In (SetValue k) earlier
             /\ trace m
                = earlier ++ [SetItem (withPhase SCRAPING_RESULTS (initialState k));
                              Click (ButtonControl
                                       (actualSearchButton (document w) searchButton))])
  /\ (atGoogleRoot w = true ->
      q_searchInput (document w) = false \/ q_searchButton (document w) = None ->
      sessionStorage m = None
      /\ navigations (trace m) = 0
      /\ existsb isError (trace m) = true).
Proof.
  intros Hk m. subst m. unfold startFullGoogleSearchAutomation.
  rewrite (load_fresh k Hk). unfold dispatch, atGoogleRoot. simpl state. cbv iota.
  rewrite <- negb_andb.
  destruct (JsString.includes "google.com" (hostname (location w))
            && (pathname (location w) =? "/")); simpl negb; cbv iota.
  - split; [discriminate |]. split.
    + intros _ searchButton Hi Hb.
      unfold andThen, processGoogleHomePage. rewrite Hi, Hb. simpl.
      split; [reflexivity |].
      eexists [_; _; _; _; _; _]. split; [| reflexivity]. simpl. tauto.
    + intros _ Hmiss. unfold andThen, processGoogleHomePage.
      destruct (q_searchInput (document w));
        [destruct (q_searchButton (document w)) |];
        try (destruct Hmiss; discriminate); simpl; repeat split.
  - split; [| split; discriminate].
    intros _. split; reflexivity.
Qed.

(** X11.  One execution of the SCRAPING_RESULTS phase only appends to
    [allResults]: the new collection is the merge of the old one with
    the page's records, so the old one is a prefix of it.  Keyword and
    page limit are unchanged, and the page number stays or goes up by
    one, the latter only below the limit. *)
Theorem scraping_appends (w : Window) (m : Machine) :
  let m' := processSearchResultsPage w m in
  (exists currentPageData,
     extractCurrentPageGoogleResults w = inr currentPageData
     /\ allResults (state m') = mergeResults (allResults (state m)) currentPageData)
  /\ (exists added, allResults (state m') = allResults (state m) ++ added)
  /\ keyword (state m') = keyword (state m)
  /\ maxPages (state m') = maxPages (state m)
  /\ (currentPageNum (state m') = currentPageNum (state m)
      \/ (currentPageNum (state m') = S (currentPageNum (state m))
          /\ currentPageNum (state m) < maxPages (state m))).
Proof.
  intros m'. subst m'. rewrite results_steps.
  set (data := flat_map (recordsOf w) (resultElements (document w))).
  set (m0 := console LLog MsgPageCount (console LLog MsgOnResults m)).
  destruct (paginate_state w (mergePage data m0)) as (Ha & Hk & Hmx & Hp).
  destruct (mergePage_shape data m0) as (_ & _ & _ & _ & _ & Hp1 & Hm1 & _ & Hk1 & _).
  simpl in Hp1, Hm1, Hk1.
  rewrite Ha, Hk, Hmx, mergePage_results, Hk1, Hm1. rewrite Hp1, Hm1 in Hp.
  change (allResults (state m0)) with (allResults (state m)).
  split; [exists data; split; [apply extract_total | reflexivity] |].
  split; [| split; [reflexivity | split; [reflexivity | exact Hp]]].
  destruct (mergeResults_appends data (allResults (state m))) as (added & -> & _).
  now exists added.
Qed.

(** X12.  The button that gets clicked is an "I'm Feeling Lucky" button
    only when the button found first is one and every submit button of
    the page is one too. *)
Theorem lucky_button_avoided (d : Document) (searchButton : Button) :
  isLuckyButton (actualSearchButton d searchButton) = true
  <-> isLuckyButton searchButton = true
      /\ forallb isLuckyButton (q_submitButtons d) = true.
Proof.
  unfold actualSearchButton.
  destruct (isLuckyButton searchButton) eqn:Hb.
  - destruct (find isPlainButton (q_submitButtons d)) as [btn |] eqn:Hf.
    + apply find_some in Hf as [Hin Hplain].
      rewrite isPlainButton_not_lucky in Hplain. apply negb_true_iff in Hplain.
      split; [congruence |]. intros [_ Hall].
      rewrite forallb_forall in Hall. rewrite (Hall btn Hin) in Hplain. discriminate.
    + split; [| intros _; exact Hb]. intros _. split; [reflexivity |].
      apply forallb_forall. intros btn Hin.
      pose proof (find_none _ _ Hf btn Hin) as Hplain.
      rewrite isPlainButton_not_lucky in Hplain. now apply negb_false_iff in Hplain.
  - rewrite Hb. split; [discriminate | intros [H _]; discriminate].
Qed.

(** X13.  With nothing stored, or with a payload that does not parse,
    page loads never start the workflow: no navigation, no write to the
    store, and the store is empty afterwards. *)
Theorem halted_until_called (ws : list Window) (storage : Storage) :
  storage = None \/ storage = Some Corrupt ->
  navigations (fst (pageLoads ws storage)) = 0
  /\ existsb isSetItem (fst (pageLoads ws storage)) = false
  /\ (ws <> [] \/ storage = None -> snd (pageLoads ws storage) = None).
Proof.
  revert storage. induction ws as [|w ws IH]; intros storage Hs.
  - simpl. repeat split. intros [H | H]; congruence.
  - cbn [pageLoads].
    assert (Hl : exists evs, onPageLoad w storage = (evs, None)
                   /\ navigations evs = 0 /\ existsb isSetItem evs = false).
    { destruct Hs as [-> | ->]; simpl; eauto. }
    destruct Hl as (evs & -> & Hn & Hset).
    destruct (IH None (or_introl eq_refl)) as (Hn' & Hset' & Hnone).
    destruct (pageLoads ws None) as [evs' storage']. cbn [fst snd] in *.
    rewrite navigations_app, existsb_app, Hn, Hn', Hset, Hset'.
    repeat split. intros _. apply Hnone. now right.
Qed.

(** X14.  A page load always resumes a workflow found in a reachable
    store: the hook calls the controller with the stored keyword, and
    the controller dispatches on exactly the stored state. *)
Theorem stored_workflow_resumes (w : Window) (storage : Storage) (st : WorkflowState) :
  reachable storage ->
  storage = Some (Stored st) ->
  let m := dispatch w {| state := st; sessionStorage := storage;
                         log := [Console LLog MsgRestored]; uncaught := None |} in
  onPageLoad w storage = (Console LLog MsgHookResuming :: trace m, sessionStorage m).
Proof.
  intros Hr -> m. subst m.
  destruct (reachable_storeWellFormed _ Hr) as [_ Hst].
  destruct (Hst st eq_refl) as ((Hk & _) & Hph).
  unfold onPageLoad, startFullGoogleSearchAutomation.
  rewrite Hk, (load_same st Hk).
  destruct (currentPhase st); try reflexivity. congruence.
Qed.

(* ================================================================== *)
(** ** The HTML parser helpers *)
(* ================================================================== *)

Section Parser.

Import HtmlParser.

Lemma dataRows_rows headers rows :
  dataRows headers rows
  = map (fun row => fillRow 0 headers (q_td row) []) (filter hasCells rows).
Proof.
  induction rows as [|row rows IH]; simpl; [reflexivity |].
  unfold hasCells. destruct (q_td row) as [|cell cells] eqn:E; simpl;
    rewrite ?E, IH; reflexivity.
Qed.

Lemma objGet_setOwn_same k v o : objGet k (setOwn k v o) = Some v.
Proof.
  induction o as [|[k' v'] o IH]; simpl.
  - now rewrite String.eqb_refl.
  - destruct (k' =? k) eqn:E; simpl; rewrite E; [reflexivity | exact IH].
Qed.

Lemma objGet_setOwn_other k k' v o :
  k <> k' -> objGet k (setOwn k' v o) = objGet k o.
Proof.
  intros Hne. induction o as [|[k'' v''] o IH]; simpl.
  - apply not_eq_sym in Hne. apply String.eqb_neq in Hne. now rewrite Hne.
  - destruct (k'' =? k') eqn:E; simpl.
    + apply String.eqb_eq in E. subst k''.
      apply not_eq_sym in Hne. apply String.eqb_neq in Hne. now rewrite Hne.
    + now rewrite IH.
Qed.

(** Reading back what was assigned, except under [__proto__]. *)
Lemma objGet_objSet_same k v o :
  k <> "__proto__" -> objGet k (objSet k v o) = Some v.
Proof.
  intros Hk. unfold objSet. apply String.eqb_neq in Hk. rewrite Hk.
  apply objGet_setOwn_same.
Qed.

(** An assignment leaves the other properties alone. *)
Lemma objGet_objSet_other k k' v o :
  k <> k' -> objGet k (objSet k' v o) = objGet k o.
Proof.
  intros Hne. unfold objSet. destruct (k' =? "__proto__"); [reflexivity |].
  now apply objGet_setOwn_other.
Qed.

Lemma fillRow_other hs :
  forall cs j o k,
    Forall (fun h => JsString.nonEmpty h = true) hs -> ~ In k hs ->
    objGet k (fillRow j hs cs o) = objGet k o.
Proof.
  induction hs as [|h hs IH]; intros cs j o k Hne Hk; simpl; [reflexivity |].
  destruct cs as [|c cs]; [reflexivity |].
  inversion Hne as [|? ? Hh Hhs]; subst. rewrite Hh.
  rewrite IH by (assumption || (intros Hin; apply Hk; now right)).
  apply objGet_objSet_other. intros ->. apply Hk. now left.
Qed.

(** The value under a header in one data row. *)
Lemma fillRow_lookup hs :
  forall cs j0 o i h c,
    Forall (fun h => JsString.nonEmpty h = true) hs -> NoDup hs ->
    h <> "__proto__" ->
    nth_error hs i = Some h -> nth_error cs i = Some c ->
    objGet h (fillRow j0 hs cs o) = Some (JsString.trim c).
Proof.
  induction hs as [|h0 hs IH]; intros cs j0 o i h c Hne Hnd Hproto Hh Hc.
  - destruct i; discriminate.
  - destruct cs as [|c0 cs]; [destruct i; discriminate |].
    inversion Hne as [|? ? Hh0 Hhs]; subst.
    inversion Hnd as [|? ? Hnotin Hnd']; subst.
    simpl. rewrite Hh0. destruct i as [|i]; simpl in Hh, Hc.
    + injection Hh as ->. injection Hc as ->.
      rewrite fillRow_other by assumption. now apply objGet_objSet_same.
    + now apply (IH cs (S j0) _ i).
Qed.

Lemma collectLinks_spec links :
  forall result,
    collectLinks links result
    = if existsb isSvgAnchor links then inl TypeError
      else inr (result ++ map toLink (filter keeps links)).
Proof.
  induction links as [|link links IH]; intros result; simpl.
  - now rewrite app_nil_r.
  - unfold isSvgAnchor at 1, keeps at 1.
    destruct (a_href link) as [| h |] eqn:E; simpl.
    + apply IH.
    + destruct (JsString.nonEmpty h && negb (JsString.startsWith "javascript:" h)).
      * rewrite IH. destruct (existsb isSvgAnchor links); [reflexivity |].
        assert (HL : toLink link
                     = {| text := JsString.trim (a_textContent link);
                          url := h; title := a_title link |})
          by (unfold toLink; now rewrite E).
        simpl. rewrite HL. now rewrite <- app_assoc.
      * apply IH.
    + reflexivity.
Qed.

End Parser.

(** X16.  A table whose first row has [th] cells with distinct,
    non-empty texts.  [extractTableData] returns one object per later
    row that has [td] cells, in order; and in the object of such a row
    the own property named by the header of column [j], when that
    header is not [__proto__], is the trimmed text of the row's cell
    [j]. *)
Theorem table_cell_lookup
  (first : HtmlParser.Row) (rest : list HtmlParser.Row)
  (i j : nat) (row : HtmlParser.Row) (h c : string) :
  let headers := map JsString.trim (HtmlParser.q_th first) in
  Forall (fun h => JsString.nonEmpty h = true) headers ->
  NoDup headers ->
  nth_error (filter HtmlParser.hasCells rest) i = Some row ->
  nth_error headers j = Some h ->
  h <> "__proto__" ->
  nth_error (HtmlParser.q_td row) j = Some c ->
  exists data o,
    HtmlParser.extractTableData (Some (first :: rest)) = inr data
    /\ length data = length (filter HtmlParser.hasCells rest)
    /\ nth_error data i = Some o
    /\ HtmlParser.objGet h o = Some (JsString.trim c).
Proof.
  intros headers Hne Hnd Hrow Hh Hproto Hc.
  exists (map (fun row => HtmlParser.fillRow 0 headers (HtmlParser.q_td row) [])
            (filter HtmlParser.hasCells rest)),
         (HtmlParser.fillRow 0 headers (HtmlParser.q_td row) []).
  repeat split.
  - unfold HtmlParser.extractTableData. fold headers.
    destruct (HtmlParser.q_th first) as [|th ths] eqn:Eth.
    + subst headers. destruct j; discriminate.
    + now rewrite dataRows_rows.
  - apply length_map.
  - rewrite nth_error_map, Hrow. reflexivity.
  - now apply (fillRow_lookup headers (HtmlParser.q_td row) 0 [] j).
Qed.

(** X17.  [extractLinks] returns, in document order, the anchors whose
    [href] is a non-empty string that does not start with
    "javascript:", with trimmed text; so no returned url is empty or a
    "javascript:" url.  It throws when some anchor has an [href] that
    is not a string. *)
Theorem links_kept (links : list HtmlParser.Anchor) :
  (existsb HtmlParser.isSvgAnchor links = false ->
     HtmlParser.extractLinks (Some links)
     = inr (map HtmlParser.toLink (filter HtmlParser.keeps links)))
  /\ (existsb HtmlParser.isSvgAnchor links = true ->
      HtmlParser.extractLinks (Some links) = inl TypeError)
  /\ (forall result l,
        HtmlParser.extractLinks (Some links) = inr result -> In l result ->
        HtmlParser.url l <> ""
        /\ JsString.startsWith "javascript:" (HtmlParser.url l) = false).
Proof.
  unfold HtmlParser.extractLinks. rewrite collectLinks_spec. simpl app.
  split; [intros ->; reflexivity |]. split; [intros ->; reflexivity |].
  intros result l Hres Hl.
  destruct (existsb HtmlParser.isSvgAnchor links); [discriminate |].
  injection Hres as <-. apply in_map_iff in Hl as (a & <- & Ha).
  apply filter_In in Ha as [_ Hk]. unfold HtmlParser.keeps in Hk.
  unfold HtmlParser.toLink. simpl.
  destruct (HtmlParser.a_href a) as [| s |]; try discriminate.
  apply andb_true_iff in Hk as [Hne Hjs]. simpl. split.
  - intros ->. discriminate.
  - now apply negb_true_iff in Hjs.
Qed.

(* ================================================================== *)
(** ** The further properties on the sample pages *)
(* ================================================================== *)


Lemma title_element_without_href_witness :
  q_titleLink headingInAnchor
  = Some {| tagName := "H3"; href := VUndefined;
            textContent := "A page title"; q_heading := None |}
  /\ truthy VUndefined = false
  /\ matches_RzdJxc headingInAnchor = false
  /\ recordsOf Sample.pageA headingInAnchor = [].
Proof.
  do 3 (split; [reflexivity |]).
  exact (title_element_without_href Sample.pageA headingInAnchor _
           eq_refl eq_refl eq_refl).
Defined.

Lemma stored_state_well_formed_witness :
  reachable Sample.afterPageA
  /\ Sample.afterPageA <> Some Corrupt
  /\ forall st, Sample.afterPageA = Some (Stored st) ->
       given (keyword st) = true
       /\ currentPhase st <> FINISHED
       /\ maxPages st = 10
       /\ 1 <= currentPageNum st <= 10.
Proof.
  assert (H : reachable Sample.afterPageA).
  { unfold Sample.afterPageA, Sample.afterHome.
    apply reach_load, reach_call, reach_fresh. }
  split; [exact H | exact (stored_state_well_formed Sample.afterPageA H)].
Defined.

Lemma invocation_clears_or_hands_over_witness :
  let m := startFullGoogleSearchAutomation Sample.elsewhere (Some "rocq") None in
  (@None Payload <> Some Corrupt \/ given (Some "rocq") = true)
  /\ (sessionStorage m = None
      \/ (sessionStorage m = Some (Stored (state m))
          /\ currentPhase (state m) <> FINISHED
          /\ navigations (trace m) = 1)).
Proof.
  intros m.
  assert (H : @None Payload <> Some Corrupt \/ given (Some "rocq") = true)
    by (right; reflexivity).
  split; [exact H |].
  exact (invocation_clears_or_hands_over Sample.elsewhere (Some "rocq") None H).
Defined.

Lemma different_keyword_starts_over_witness :
  let ps := Sample.scraping 3 10 [] in
  let m := startFullGoogleSearchAutomation Sample.elsewhere (Some "coq") (Some (Stored ps)) in
  let fresh := startFullGoogleSearchAutomation Sample.elsewhere (Some "coq") None in
  given (Some "coq") = true
  /\ Some "coq" <> keyword ps
  /\ state m = state fresh
  /\ sessionStorage m = sessionStorage fresh
  /\ trace m = Console LLog MsgNewKeyword :: trace fresh.
Proof.
  intros ps m fresh.
  assert (H1 : given (Some "coq") = true) by reflexivity.
  assert (H2 : Some "coq" <> keyword ps) by discriminate.
  split; [exact H1 |]. split; [exact H2 |].
  exact (different_keyword_starts_over Sample.elsewhere (Some "coq") ps H1 H2).
Defined.

Lemma first_call_witness :
  let w := Sample.homePage true (Some Sample.searchBtn) in
  let m := startFullGoogleSearchAutomation w (Some "rocq") None in
  given (Some "rocq") = true
  /\ atGoogleRoot w = true
  /\ sessionStorage m
     = Some (Stored (withPhase SCRAPING_RESULTS (initialState (Some "rocq")))).
Proof.
  intros w m.
  assert (H1 : given (Some "rocq") = true) by reflexivity.
  assert (H2 : atGoogleRoot w = true) by reflexivity.
  split; [exact H1 |]. split; [exact H2 |].
  destruct (first_call w (Some "rocq") H1) as (_ & Hhome & _).
  destruct (Hhome H2 Sample.searchBtn eq_refl eq_refl) as [Hst _].
  exact Hst.
Defined.

Lemma halted_until_called_witness :
  let ws := [Sample.pageA; Sample.pageB] in
  (Some Corrupt = None \/ Some Corrupt = Some Corrupt)
  /\ navigations (fst (pageLoads ws (Some Corrupt))) = 0
  /\ existsb isSetItem (fst (pageLoads ws (Some Corrupt))) = false
  /\ (ws <> [] \/ Some Corrupt = None -> snd (pageLoads ws (Some Corrupt)) = None).
Proof.
  intros ws.
  assert (H : Some Corrupt = None \/ Some Corrupt = Some Corrupt) by (right; reflexivity).
  split; [exact H |].
  exact (halted_until_called ws (Some Corrupt) H).
Defined.

Lemma stored_workflow_resumes_witness :
  let st := withPhase SCRAPING_RESULTS (initialState (Some "rocq")) in
  let m := dispatch Sample.pageA
             {| state := st; sessionStorage := Sample.afterHome;
                log := [Console LLog MsgRestored]; uncaught := None |} in
  reachable Sample.afterHome
  /\ Sample.afterHome = Some (Stored st)
  /\ onPageLoad Sample.pageA Sample.afterHome
     = (Console LLog MsgHookResuming :: trace m, sessionStorage m).
Proof.
  intros st m.
  assert (H1 : reachable Sample.afterHome)
    by (unfold Sample.afterHome; apply reach_call, reach_fresh).
  assert (H2 : Sample.afterHome = Some (Stored st)) by reflexivity.
  split; [exact H1 |]. split; [exact H2 |].
  exact (stored_workflow_resumes Sample.pageA Sample.afterHome st H1 H2).
Defined.

Example escaped_wrapper_unwrapped :
  recordsOf Sample.pageA (Sample.organic wrappedEscaped "Example target")
  = [ {| title := "Example target"; url := "https://example.com/target";
         displayUrl := "N/A"; summary := "A short description of the page." |} ].
Proof. reflexivity. Qed.

Example decode_two_byte_sequence :
  map nat_of_ascii (list_ascii_of_string (URLSearchParams.decode "caf%C3%A9+%41"))
  = [99; 97; 102; 233; 32; 65].
Proof. reflexivity. Qed.

Example proto_header_is_ignored :
  HtmlParser.fillRow 0 ["__proto__"; "Price"] ["Tea"; "3"] [] = [("Price", "3")].
Proof. reflexivity. Qed.

Example price_table_data :
  HtmlParser.extractTableData (Some HtmlParser.priceTable)
  = inr [ [("Item", "Tea"); ("Price", "3")];
          [("Item", "Milk"); ("Price", "2")] ].
Proof. reflexivity. Qed.

Lemma table_cell_lookup_witness :
  let first := {| HtmlParser.q_th := ["Item "; "Price"]; HtmlParser.q_td := [] |} in
  let rest := tl HtmlParser.priceTable in
  let row := {| HtmlParser.q_th := []; HtmlParser.q_td := ["Milk"; "2"; "extra"] |} in
  let headers := map JsString.trim (HtmlParser.q_th first) in
  Forall (fun h => JsString.nonEmpty h = true) headers
  /\ NoDup headers
  /\ nth_error (filter HtmlParser.hasCells rest) 1 = Some row
  /\ nth_error headers 0 = Some "Item"
  /\ "Item" <> "__proto__"
  /\ nth_error (HtmlParser.q_td row) 0 = Some "Milk"
  /\ exists data o,
       HtmlParser.extractTableData (Some (first :: rest)) = inr data
       /\ length data = length (filter HtmlParser.hasCells rest)
       /\ nth_error data 1 = Some o
       /\ HtmlParser.objGet "Item" o = Some (JsString.trim "Milk").
Proof.
  intros first rest row headers.
  assert (H1 : Forall (fun h => JsString.nonEmpty h = true) headers)
    by (repeat constructor).
  assert (H2 : NoDup headers).
  { repeat constructor; simpl; intros H; repeat destruct H as [H | H];
      discriminate || contradiction. }
  assert (H3 : "Item" <> "__proto__") by discriminate.
  split; [exact H1 |]. split; [exact H2 |]. do 2 (split; [reflexivity |]).
  split; [exact H3 |]. split; [reflexivity |].
  exact (table_cell_lookup first rest 1 0 row "Item" "Milk" H1 H2 eq_refl eq_refl H3 eq_refl).
Defined.

Lemma links_kept_witness :
  existsb HtmlParser.isSvgAnchor HtmlParser.pageAnchors = false
  /\ HtmlParser.extractLinks (Some HtmlParser.pageAnchors)
     = inr [ {| HtmlParser.text := "Home"; HtmlParser.url := "https://a.org/";
                HtmlParser.title := "" |};
             {| HtmlParser.text := "About"; HtmlParser.url := "https://a.org/about";
                HtmlParser.title := "Us" |} ].
Proof.
  assert (H : existsb HtmlParser.isSvgAnchor HtmlParser.pageAnchors = false)
    by reflexivity.
  split; [exact H |].
  destruct (links_kept HtmlParser.pageAnchors) as (Hkept & _).
  exact (Hkept H).
Defined.
